(** * Verification of the Substack export converter

    A shallow embedding of [scripts/parse_html.py] (the HTML to Markdown
    conversion core and its driver), of [scripts/batch_by_quarter.py] (the
    quarterly batcher), of [scripts/convert_to_jsonl.py] (the JSONL
    writer) and of [scripts/process_export.py] (the pipeline), with the
    properties of the specification stated over it.

    Conventions of the embedding.
    - A Python [str] is a [string]; a character stands for a code point
      below 256, so whitespace and digits are exactly Python's on that range.
    - A Python [int] produced by [int(...)] on a digit run is an [N];
      the conversion raises beyond the digit limit of the interpreter
      (4300 digits, the default, which the program leaves as it is).
    - A Python [dict] is a [gmap]; the only iteration over the footnote
      dictionary goes through [sorted], so insertion order plays no part.
    - An exception is a value [Raise e] of the [result] type: [e] gives the
      class of the exception and the fixed part of its message, without
      the value that the message quotes.
    - The recursion depth and the memory of the interpreter are outside
      the model. *)

From Stdlib Require Import Ascii String ZArith Lia.
From Stdlib Require Import Sorted.
From stdpp Require Import base strings list gmap pretty.

Set Warnings "-register-all".

(** ** Python string primitives *)

Module Py.

(** [str.isspace] on one character, for code points below 256. *)
Definition isspace (c : ascii) : bool :=
  match c with
  | "009" | "010" | "011" | "012" | "013"
  | "028" | "029" | "030" | "031" | " "
  | "133" | "160" => true
  | _ => false
  end%char.

(** The class [\d] of the [re] module, for code points below 256. *)
Definition isdigit (c : ascii) : bool :=
  match c with
  | "0" | "1" | "2" | "3" | "4" | "5" | "6" | "7" | "8" | "9" => true
  | _ => false
  end%char.

(** Truth value of a [str]: the empty string is false. *)
Definition truthy (s : string) : bool :=
  match s with
  | "" => false
  | String _ _ => true
  end.

(** Truth value of an optional [str] ([None] or a string). *)
Definition truthy_opt (r : option string) : bool :=
  match r with
  | None => false
  | Some s => truthy s
  end.

(** The strings ['\n'] and ['\n\n']. *)
Definition NL : string := String "010" "".
Definition NL2 : string := String "010" (String "010" "").

(** [s.lstrip()] *)
Fixpoint lstrip (s : string) : string :=
  match s with
  | "" => ""
  | String c s' => if isspace c then lstrip s' else s
  end.

(** [s.rstrip()]: a whitespace character goes when all that follows it
    goes too. *)
Fixpoint rstrip (s : string) : string :=
  match s with
  | "" => ""
  | String c s' =>
      match rstrip s' with
      | "" => if isspace c then "" else String c ""
      | r => String c r
      end
  end.

(** [s.strip()] *)
Definition strip (s : string) : string := rstrip (lstrip s).

(** [sep.join(l)] *)
Definition join (sep : string) (l : list string) : string :=
  String.concat sep l.

(** [s.startswith(p)] *)
Fixpoint startswith (p s : string) : bool :=
  match p, s with
  | "", _ => true
  | String a p', String b s' => bool_decide (a = b) && startswith p' s'
  | String _ _, "" => false
  end.

(** [needle in hay] for two strings. *)
Fixpoint contains (needle hay : string) : bool :=
  startswith needle hay ||
  match hay with
  | "" => false
  | String _ hay' => contains needle hay'
  end.

(** [s[n:]] *)
Fixpoint drop (n : nat) (s : string) : string :=
  match n, s with
  | O, _ => s
  | S n', String _ s' => drop n' s'
  | S _, "" => ""
  end.

(** The longest prefix of [s] made of digits: what a greedy [\d*] takes. *)
Fixpoint take_digits (s : string) : string :=
  match s with
  | "" => ""
  | String c s' => if isdigit c then String c (take_digits s') else ""
  end.

(** The pattern [lit(\d+)] tried at the start of [s]: the captured group. *)
Definition match_here (lit s : string) : option string :=
  if startswith lit s then
    match take_digits (drop (String.length lit) s) with
    | "" => None
    | ds => Some ds
    end
  else None.

(** [re.search(lit + r'(\d+)', s)] for a literal [lit] without
    metacharacters: the leftmost position where the pattern matches, with
    the greedy group.  [None] stands for no match, [Some ds] for a match
    object whose [group(1)] is [ds]. *)
Fixpoint re_search (lit s : string) : option string :=
  match match_here lit s with
  | Some ds => Some ds
  | None =>
      match s with
      | "" => None
      | String _ s' => re_search lit s'
      end
  end.

(** Exceptions of the embedding. *)
Inductive exn : Type :=
  | ValueError (msg : string)
  | KeyError (msg : string)
  | UnicodeDecodeError (msg : string)
  | OSError (msg : string).

Inductive result (A : Type) : Type :=
  | Ok (a : A)
  | Raise (e : exn).
Arguments Ok {A} a.
Arguments Raise {A} e.

(** Value of one decimal digit: its distance from ["0"]. *)
Definition digit_value (c : ascii) : option N :=
  if isdigit c then Some (N_of_ascii c - N_of_ascii "0")%N else None.

Fixpoint int_digits (acc : N) (s : string) : option N :=
  match s with
  | "" => Some acc
  | String c s' =>
      match digit_value c with
      | Some d => int_digits (acc * 10 + d) s'
      | None => None
      end
  end.

(** [sys.get_int_max_str_digits()]: the default of the interpreter; the
    program never sets it. *)
Definition int_max_str_digits : nat := 4300.
#[global] Arguments int_max_str_digits : simpl never.

(** The exception of [int] on a digit run longer than the limit. *)
Definition digit_limit_exceeded : exn :=
  ValueError "Exceeds the limit (4300 digits) for integer string conversion".

(** [int(s)] on a string of decimal digits; anything else raises
    [ValueError] here (signs, blanks and underscores, which Python also
    accepts, never reach the call in this program).  The digits are counted
    first, leading zeros included: a run of more than
    [int_max_str_digits] digits raises [ValueError] whatever follows it. *)
Definition int (s : string) : result N :=
  match s with
  | "" => Raise (ValueError "invalid literal for int()")
  | _ =>
      if (int_max_str_digits <? String.length (take_digits s))%nat then
        Raise digit_limit_exceeded
      else
        match int_digits 0 s with
        | Some n => Ok n
        | None => Raise (ValueError "invalid literal for int()")
        end
  end.

(** [str(n)] for a non-negative [int]. *)
Definition str (n : N) : string := pretty n.

(** [c * n] for a one-character string [c]. *)
Fixpoint repeat_char (c : ascii) (n : nat) : string :=
  match n with
  | O => ""
  | S n' => String c (repeat_char c n')
  end.

(** [s.replace(old, new)] for a one-character [old]. *)
Fixpoint replace_char (old : ascii) (new : string) (s : string) : string :=
  match s with
  | "" => ""
  | String c s' =>
      (if bool_decide (c = old) then new else String c "")
        +:+ replace_char old new s'
  end.

(** [sorted(l)] and [l.sort(key=...)]: a stable sort for the order [R]
    (an element goes before the first later element that is not smaller). *)
Section sorting.
Context {A : Type} (R : relation A) `{!RelDecision R}.

Fixpoint insort (x : A) (l : list A) : list A :=
  match l with
  | [] => [x]
  | y :: l' => if decide (R x y) then x :: l else y :: insort x l'
  end.

Definition sorted (l : list A) : list A := foldr insort [] l.
End sorting.

End Py.

Export Py.

(** ** The node tree (the parser's output) *)

(** A node is a text leaf ([name is None]) or a tag with its name, its
    attributes other than [class], its [class] list ([get('class', [])]
    is the empty list when the attribute is absent) and its children.
    The special strings of the parser (comments, declarations) are not
    told apart from text. *)
Inductive Node : Type :=
  | Text (s : string)
  | Element (name : string) (attrs : gmap string string)
            (class : list string) (children : list Node).

(** [tag.get(key, '')] *)
Definition get_attr (attrs : gmap string string) (key : string) : string :=
  default "" (attrs !! key).

Definition children_of (n : Node) : list Node :=
  match n with
  | Text _ => []
  | Element _ _ _ children => children
  end.

(** [tag.get_text()]: all the strings below the node, in document order. *)
Fixpoint get_text (n : Node) : string :=
  match n with
  | Text s => s
  | Element _ _ _ children => join "" (map get_text children)
  end.

(** The descendants of a node in document order, the node excluded. *)
Fixpoint descendants (n : Node) : list Node :=
  match n with
  | Text _ => []
  | Element _ _ _ children =>
      flat_map (fun c => c :: descendants c) children
  end.

(** [tag.name == name] *)
Definition has_name (name : string) (n : Node) : bool :=
  match n with
  | Text _ => false
  | Element nm _ _ _ => bool_decide (nm = name)
  end.

(** [cls in tag.get('class', [])] *)
Definition has_class (cls : string) (n : Node) : bool :=
  match n with
  | Text _ => false
  | Element _ _ class _ => bool_decide (cls ∈ class)
  end.

(** [element.find(name)]: the first descendant tag of that name. *)
Definition find (name : string) (element : Node) : option Node :=
  List.find (has_name name) (descendants element).

(** [element.find(name, class_=cls)] *)
Definition find_class (name cls : string) (element : Node) : option Node :=
  List.find (fun n => has_name name n && has_class cls n)
            (descendants element).

(** [tag.get(key, '')] on a node known to be a tag. *)
Definition node_attr (n : Node) (key : string) : string :=
  match n with
  | Text _ => ""
  | Element _ attrs _ _ => get_attr attrs key
  end.

(** ** parse_html.py *)

(** The footnote dictionary: numeral to rendered content. *)
Abbreviation Registry := (gmap N string).

(** One child of [get_text_content]'s loop: the strings it appends to
    [result].  [rec] is the recursive call on the child. *)
Definition inline_piece (rec : Node -> string) (child : Node) : list string :=
  match child with
  | Text s => [s]
  | Element name attrs class _ =>
      if bool_decide (name = "a") then
        if bool_decide ("footnote-anchor" ∈ class) then
          let href := get_attr attrs "href" in
          match re_search "#footnote-" href with
          | Some footnote_num => ["[^" +:+ footnote_num +:+ "]"]
          | None => []
          end
        else
          let href := get_attr attrs "href" in
          let text := get_text child in
          if truthy href && truthy text
          then ["[" +:+ text +:+ "](" +:+ href +:+ ")"]
          else [text]
      else if bool_decide (name = "em") then
        ["*" +:+ rec child +:+ "*"]
      else if bool_decide (name = "strong") then
        ["**" +:+ rec child +:+ "**"]
      else if bool_decide (name = "code") then
        ["`" +:+ get_text child +:+ "`"]
      else
        [rec child]
  end.

Fixpoint get_text_content (element : Node) (footnote_refs : Registry)
    (counter : Z) {struct element} : string :=
  match element with
  | Text s => strip s
  | Element _ _ _ children =>
      join ""
        (flat_map
           (inline_piece (fun c => get_text_content c footnote_refs counter))
           children)
  end.

(** The image source after the wrapping link has been consulted. *)
Definition resolve_src (src : string) (parent_link : option Node) : string :=
  match parent_link with
  | Some link =>
      let href := node_attr link "href" in
      if truthy href && contains "substackcdn.com" href then href
      else if contains "bucketeer" src && truthy href then href
      else src
  | None => src
  end.

Definition handle_image (element : Node) : option string :=
  match find "img" element with
  | Some img =>
      let alt_text := node_attr img "alt" in
      let src := resolve_src (node_attr img "src")
                   (find_class "a" "image-link" element) in
      match find "figcaption" element with
      | Some caption =>
          match find "a" caption with
          | Some caption_link =>
              let caption_text := get_text caption_link in
              let caption_url := node_attr caption_link "href" in
              Some ("![" +:+ alt_text +:+ "](" +:+ src +:+ ")" +:+ NL
                      +:+ "*[" +:+ caption_text +:+ "](" +:+ caption_url
                      +:+ ")*")
          | None =>
              let caption_text := get_text caption in
              Some ("![" +:+ alt_text +:+ "](" +:+ src +:+ ")" +:+ NL
                      +:+ "*" +:+ caption_text +:+ "*")
          end
      | None => Some ("![" +:+ alt_text +:+ "](" +:+ src +:+ ")")
      end
  | None => None
  end.

(** *** The registry as mutable state, exceptions as results *)

(** The functions below [convert_html_to_markdown] share one dictionary and
    mutate it in place: a computation takes the dictionary and gives back a
    value with the dictionary after it, or raises. *)
Definition M (A : Type) : Type := Registry -> result (A * Registry).

Definition ret {A} (a : A) : M A := fun refs => Ok (a, refs).

Definition bind {A B} (m : M A) (k : A -> M B) : M B :=
  fun refs =>
    match m refs with
    | Ok (a, refs') => k a refs'
    | Raise e => Raise e
    end.

Definition lift {A} (r : result A) : M A :=
  fun refs =>
    match r with
    | Ok a => Ok (a, refs)
    | Raise e => Raise e
    end.

(** Read the dictionary (to pass it on as an argument). *)
Definition get_refs : M Registry := fun refs => Ok (refs, refs).

(** [footnote_refs[k] = v] *)
Definition store (k : N) (v : string) : M unit :=
  fun refs => Ok (tt, <[k := v]> refs).

Notation "'do' x <- m ;; k" := (bind m (fun x => k))
  (at level 10, x name, m at level 99, k at level 200).

Definition handle_footnote_definition (element : Node) (counter : Z)
    : M (option string) :=
  match find_class "a" "footnote-number" element with
  | Some footnote_num_elem =>
      let href := node_attr footnote_num_elem "href" in
      match re_search "footnote-anchor-" href with
      | Some group1 =>
          do footnote_num <- lift (int group1) ;;
          match find_class "div" "footnote-content" element with
          | Some content_elem =>
              let content_text := get_text_content content_elem ∅ counter in
              do _ <- store footnote_num (strip content_text) ;;
              ret None
          | None => ret None
          end
      | None => ret None
      end
  | None => ret None
  end.

(** [if child.name:] a tag whose name is not empty. *)
Definition name_truthy (n : Node) : bool :=
  match n with
  | Text _ => false
  | Element name _ _ _ => truthy name
  end.

(** The loop of the plain [div] branch: the non-empty results of the
    children that are tags, in order. *)
Fixpoint each_child (f : Node -> M (option string)) (children : list Node)
    : M (list string) :=
  match children with
  | [] => ret []
  | child :: rest =>
      if name_truthy child then
        do result <- f child ;;
        do results <- each_child f rest ;;
        ret (match result with
             | Some s => if truthy s then s :: results else results
             | None => results
             end)
      else each_child f rest
  end.

Fixpoint process_element (element : Node) (counter : Z) {struct element}
    : M (option string) :=
  match element with
  | Text s =>
      let text := strip s in
      ret (if truthy text then Some text else None)
  | Element name attrs class children =>
      if bool_decide (name = "h1") then
        do footnote_refs <- get_refs ;;
        ret (Some ("# " +:+ get_text_content element footnote_refs counter))
      else if bool_decide (name = "h2") then
        do footnote_refs <- get_refs ;;
        ret (Some ("## " +:+ get_text_content element footnote_refs counter))
      else if bool_decide (name = "h3") then
        do footnote_refs <- get_refs ;;
        ret (Some ("### " +:+ get_text_content element footnote_refs counter))
      else if bool_decide (name = "p") then
        do footnote_refs <- get_refs ;;
        ret (Some (get_text_content element footnote_refs counter))
      else if bool_decide (name = "blockquote") then
        do footnote_refs <- get_refs ;;
        ret (Some (join NL
               (map (fun child =>
                       "> " +:+ get_text_content child footnote_refs counter)
                    (filter (fun child => has_name "p" child = true)
                            children))))
      else if bool_decide (name = "div") then
        if bool_decide ("captioned-image-container" ∈ class) then
          ret (handle_image element)
        else if bool_decide ("footnote" ∈ class) then
          handle_footnote_definition element counter
        else
          do results <- each_child (fun c => process_element c counter)
                                children ;;
          ret (match results with
               | [] => None
               | _ => Some (join NL2 results)
               end)
      else ret None
  end.

(** The title block at the top of [markdown_lines]. *)
Definition header_lines (title subtitle : option string) : list string :=
  match title with
  | Some t =>
      if truthy t then
        ["# " +:+ t]
          ++ match subtitle with
             | Some st => if truthy st then ["*" +:+ st +:+ "*"] else []
             | None => []
             end
          ++ ["---"]
      else []
  | None => []
  end.

(** The loop over [soup.children]: the blocks appended to
    [markdown_lines], in order.  [next] recomputes the counter after a
    block was appended. *)
Fixpoint walk_children (next : Registry -> Z) (children : list Node)
    (footnote_counter : Z) : M (list string) :=
  match children with
  | [] => ret []
  | element :: rest =>
      match element with
      | Text _ => walk_children next rest footnote_counter
      | Element _ _ _ _ =>
          do result <- process_element element footnote_counter ;;
          match result with
          | Some s =>
              if truthy s then
                do footnote_references <- get_refs ;;
                do lines <- walk_children next rest (next footnote_references) ;;
                ret (s :: lines)
              else walk_children next rest footnote_counter
          | None => walk_children next rest footnote_counter
          end
      end
  end.

(** [sorted(footnote_references.keys())] *)
Definition sorted_keys (refs : Registry) : list N :=
  sorted N.le (map_to_list refs).*1.

(** [footnote_references[ref_num]] *)
Definition subscript (refs : Registry) (ref_num : N) : result string :=
  match refs !! ref_num with
  | Some content => Ok content
  | None => Raise (KeyError (str ref_num))
  end.

(** One line of the footnote block. *)
Definition footnote_line (ref_num : N) (content : string) : string :=
  "[^" +:+ str ref_num +:+ "]: " +:+ content.

Fixpoint footnote_lines (refs : Registry) (keys : list N)
    : result (list string) :=
  match keys with
  | [] => Ok []
  | ref_num :: rest =>
      match subscript refs ref_num with
      | Ok content =>
          match footnote_lines refs rest with
          | Ok lines => Ok (footnote_line ref_num content :: lines)
          | Raise e => Raise e
          end
      | Raise e => Raise e
      end
  end.

(** The separator block ['\n---\n']. *)
Definition footnote_separator : string := NL +:+ "---" +:+ NL.

(** What is appended after the loop: nothing for an empty dictionary, the
    separator block and the lines otherwise. *)
Definition footnote_block (refs : Registry) : result (list string) :=
  if bool_decide (refs = ∅) then Ok []
  else
    match footnote_lines refs (sorted_keys refs) with
    | Ok lines => Ok (footnote_separator :: lines)
    | Raise e => Raise e
    end.

(** [convert_html_to_markdown] with the first counter value and the
    recomputation of the counter left open. *)
Definition convert_with (init : Z) (next : Registry -> Z)
    (root : Node) (title subtitle : option string) : result string :=
  match walk_children next (children_of root) init ∅ with
  | Ok (blocks, footnote_references) =>
      match footnote_block footnote_references with
      | Ok foot =>
          Ok (strip (join NL2 (header_lines title subtitle ++ blocks ++ foot)))
      | Raise e => Raise e
      end
  | Raise e => Raise e
  end.

(** [footnote_counter = len(footnote_references) + 1] *)
Definition recount (refs : Registry) : Z := Z.of_nat (size refs) + 1.

Definition convert_html_to_markdown (root : Node)
    (title subtitle : option string) : result string :=
  convert_with 1 recount root title subtitle.

(** ** batch_by_quarter.py *)

Module Batch.

(** The fields of a [datetime] that the batcher reads. *)
Record datetime : Type := { year : Z; month : Z }.

(** A row of [posts.csv], as the batcher keeps it. *)
Record post : Type := { post_id : string; post_date : string; title : string }.

(** The separator ["=" * 80]. *)
Definition rule : string := repeat_char "=" 80.

(** The order of the sort key: the [post_date] strings, compared as
    Python compares strings. *)
Definition date_le (a b : post) : Prop :=
  String.le (post_date a) (post_date b).

#[global] Instance date_le_dec : RelDecision date_le :=
  fun a b => decide (String.le (post_date a) (post_date b)).

Section quarters.
(** [datetime.fromisoformat], of the Python library. *)
Variable fromisoformat : string -> result datetime.

Definition get_quarter (date_string : string) : result string :=
  match fromisoformat (replace_char "Z" "+00:00" date_string) with
  | Ok date =>
      let quarter := ((month date - 1) / 3 + 1)%Z in
      Ok (pretty (year date) +:+ "-Q" +:+ pretty quarter)
  | Raise e => Raise e
  end.

(** The loop over the rows: [posts_by_quarter[quarter].append(...)] on a
    [defaultdict(list)]. *)
Fixpoint add_rows (rows : list post)
    (posts_by_quarter : gmap string (list post))
    : result (gmap string (list post)) :=
  match rows with
  | [] => Ok posts_by_quarter
  | row :: rest =>
      match get_quarter (post_date row) with
      | Ok quarter =>
          add_rows rest
            (<[quarter := default [] (posts_by_quarter !! quarter) ++ [row]]>
               posts_by_quarter)
      | Raise e => Raise e
      end
  end.

(** [posts.sort(key=lambda x: x['post_date'])] *)
Definition sort_by_date (posts : list post) : list post :=
  sorted date_le posts.

Definition load_posts_by_quarter (rows : list post)
    : result (gmap string (list post)) :=
  match add_rows rows ∅ with
  | Ok posts_by_quarter => Ok (sort_by_date <$> posts_by_quarter)
  | Raise e => Raise e
  end.

(** The body of a quarterly file: the loop [for i, post_info in
    enumerate(posts, 1)].  [markdown_dir] gives the content of
    [<post_id>.md], or [None] when the file is missing or unreadable
    (the post is then skipped). *)
Fixpoint write_posts (markdown_dir : string -> option string) (i : nat)
    (posts : list post) : string :=
  match posts with
  | [] => ""
  | post_info :: rest =>
      match markdown_dir (post_id post_info) with
      | Some content =>
          (if bool_decide (1 < i) then NL2 +:+ rule +:+ NL2 else "")
            +:+ content +:+ write_posts markdown_dir (S i) rest
      | None => write_posts markdown_dir (S i) rest
      end
  end.

(** The three writes that open [<quarter>.md]. *)
Definition quarter_header (quarter : string) (posts : list post) : string :=
  "# Posts from " +:+ quarter +:+ NL2
    +:+ "This file contains " +:+ pretty (length posts)
    +:+ " posts from " +:+ quarter +:+ "." +:+ NL2
    +:+ rule +:+ NL2.

(** What is written to [<quarter>.md]. *)
Definition quarter_file (markdown_dir : string -> option string)
    (quarter : string) (posts : list post) : string :=
  quarter_header quarter posts +:+ write_posts markdown_dir 1 posts.

(** The row belongs to the quarter [quarter]. *)
Definition in_quarter (quarter : string) (row : post) : bool :=
  match get_quarter (post_date row) with
  | Ok q => bool_decide (q = quarter)
  | Raise _ => false
  end.

(** The files [main] writes: name and content, in the order written. *)
Definition main (rows : list post) (markdown_dir : string -> option string)
    : result (list (string * string)) :=
  match load_posts_by_quarter rows with
  | Ok posts_by_quarter =>
      Ok (map (fun quarter =>
                 (quarter +:+ ".md",
                  quarter_file markdown_dir quarter
                    (default [] (posts_by_quarter !! quarter))))
              (sorted String.le (map_to_list posts_by_quarter).*1))
  | Raise e => Raise e
  end.
End quarters.

(** A reading of the dates [YYYY-MM-...] that the export carries, enough
    to run the batcher on examples: the year and the month of the prefix. *)
Definition iso_year_month (s : string) : result datetime :=
  match s with
  | String y1 (String y2 (String y3 (String y4 (String "-"
      (String m1 (String m2 (String "-" _))))))) =>
      match int (String y1 (String y2 (String y3 (String y4 "")))),
            int (String m1 (String m2 "")) with
      | Ok y, Ok m =>
          if bool_decide (1 ≤ m ≤ 12)%N
          then Ok {| year := Z.of_N y; month := Z.of_N m |}
          else Raise (ValueError "month must be in 1..12")
      | _, _ => Raise (ValueError "Invalid isoformat string")
      end
  | _ => Raise (ValueError "Invalid isoformat string")
  end.

(** The separator written between two posts: the rule with a blank line
    on each side. *)
Definition separator : string := NL2 +:+ rule +:+ NL2.

(** The contents of the posts that have a readable Markdown file, in
    order: the posts that are written. *)
Definition written (markdown_dir : string -> option string)
    (posts : list post) : list string :=
  omap (fun post_info => markdown_dir (post_id post_info)) posts.

(** The body of a quarterly file as the specification words it: the posts
    concatenated, the separator between two consecutive posts. *)
Definition spec_body (markdown_dir : string -> option string)
    (posts : list post) : string :=
  join separator (written markdown_dir posts).

(** Two posts of the first quarter of 2025 and one of the second. *)
Definition post_jan : post :=
  {| post_id := "101.first"; post_date := "2025-01-05T10:00:00.000Z";
     title := "First" |}.
Definition post_feb : post :=
  {| post_id := "102.second"; post_date := "2025-02-05T10:00:00.000Z";
     title := "Second" |}.
Definition post_apr : post :=
  {| post_id := "103.third"; post_date := "2025-04-05T10:00:00.000Z";
     title := "Third" |}.

(** A directory where the Markdown file of [post_jan] is missing. *)
Definition dir_without_first (id : string) : option string :=
  if bool_decide (id = "101.first") then None
  else if bool_decide (id = "102.second") then Some "Second post"
  else if bool_decide (id = "103.third") then Some "Third post"
  else None.

(** A directory with the three files. *)
Definition dir_complete (id : string) : option string :=
  if bool_decide (id = "101.first") then Some "First post"
  else dir_without_first id.

End Batch.

(** ** Test documents *)

Definition tag (name : string) (children : list Node) : Node :=
  Element name ∅ [] children.

Definition anchor (href : string) : Node :=
  Element "a" {[ "href" := href ]} ["footnote-anchor"] [Text "1"].

Definition footnote_div (href : string) (content : list Node) : Node :=
  Element "div" ∅ ["footnote"]
    [Element "a" {[ "href" := href ]} ["footnote-number"] [Text "1"];
     Element "div" ∅ ["footnote-content"] content].

(** ** Predicates of the statements *)

Definition first_char (s : string) : option ascii :=
  match s with
  | "" => None
  | String c _ => Some c
  end.

Fixpoint last_char (s : string) : option ascii :=
  match s with
  | "" => None
  | String c s' =>
      match last_char s' with
      | None => Some c
      | Some d => Some d
      end
  end.

(** [s.endswith(suffix)] *)
Fixpoint endswith (suffix s : string) : bool :=
  bool_decide (s = suffix) ||
  match s with
  | "" => false
  | String _ s' => endswith suffix s'
  end.

Fixpoint all_digits (s : string) : bool :=
  match s with
  | "" => true
  | String c s' => isdigit c && all_digits s'
  end.

(** The digit run that [handle_footnote_definition] passes to [int]: the
    group captured after [footnote-anchor-] in the target of the link of
    class [footnote-number]. *)
Definition footnote_digits (element : Node) : option string :=
  match find_class "a" "footnote-number" element with
  | Some footnote_num_elem =>
      re_search "footnote-anchor-" (node_attr footnote_num_elem "href")
  | None => None
  end.

(** The numeral that [handle_footnote_definition] extracts: the digit run
    as a number, when [int] returns one. *)
Definition footnote_numeral (element : Node) : option N :=
  match footnote_digits element with
  | Some ds =>
      match int ds with
      | Ok n => Some n
      | Raise _ => None
      end
  | None => None
  end.

(** The digit run of a footnote division is longer than the limit of
    [int]. *)
Definition exceeds_limit (element : Node) : bool :=
  match footnote_digits element with
  | Some ds => (int_max_str_digits <? String.length ds)%nat
  | None => false
  end.

(** The traversal of [process_element] reaches a footnote division whose
    digit run is longer than the limit: the node is one, or it is a plain
    division with a child tag where the traversal reaches one. *)
Fixpoint over_limit (n : Node) : bool :=
  match n with
  | Text _ => false
  | Element name attrs class children =>
      bool_decide (name = "div")
      && negb (bool_decide ("captioned-image-container" ∈ class))
      && (if bool_decide ("footnote" ∈ class)
          then exceeds_limit (Element name attrs class children)
          else existsb (fun c => name_truthy c && over_limit c) children)
  end.

(** A footnote division whose numeral has one digit more than the limit,
    and a document that holds it after a paragraph. *)
Definition long_numeral : string := repeat_char "1" 4301.

Definition footnote_over_limit : Node :=
  footnote_div ("#footnote-anchor-" +:+ long_numeral) [Text "note"].

Definition doc_over_limit : Node :=
  tag "doc" [tag "p" [Text "Body"]; footnote_over_limit].

(** [ds] is the group that [lit(\d+)] captures in [s]: a digit run that
    follows [lit], taken as far as it goes, at the leftmost place where
    [lit] is followed by a digit. *)
Definition first_match (lit s ds : string) : Prop :=
  exists pre post,
    s = pre +:+ lit +:+ ds +:+ post
    /\ ds <> "" /\ all_digits ds = true
    /\ (forall c, first_char post = Some c -> isdigit c = false)
    /\ (forall pre' ds' post', s = pre' +:+ lit +:+ ds' +:+ post' ->
          ds' <> "" -> all_digits ds' = true ->
          String.length pre <= String.length pre').

(** [s] holds [lit] followed by at least one digit, somewhere. *)
Definition has_match (lit s : string) : Prop :=
  exists pre ds post,
    s = pre +:+ lit +:+ ds +:+ post /\ ds <> "" /\ all_digits ds = true.

(** The resolved image source, as the specification words its three
    branches.  [link_target] is the target of the wrapping image link, when
    there is such a link. *)
Definition spec_resolved_source (leaf_src : string)
    (link_target : option string) : string :=
  match link_target with
  | Some target =>
      if contains "substackcdn.com" target then target
      else if contains "bucketeer" leaf_src
              && negb (bool_decide (target = "")) then target
      else leaf_src
  | None => leaf_src
  end.

(** The lines of the footnote block for a dictionary. *)
Definition footnote_entries (refs : Registry) : list string :=
  map (fun n => footnote_line n (refs !!! n)) (sorted_keys refs).

(** The document as the specification words it: every block, the [---]
    separator line among them, set off from its neighbours by one blank
    line, and the whole trimmed. *)
Definition spec_document (header blocks : list string) (refs : Registry)
    : string :=
  strip (join NL2
           (header ++ blocks
              ++ if bool_decide (refs = ∅) then []
                 else "---" :: footnote_entries refs)).


(** A document whose only footnote has an empty content. *)
Definition doc_empty_note : Node :=
  tag "doc" [footnote_div "#footnote-anchor-1" []].

(** A paragraph and one footnote. *)
Definition doc_one_note : Node :=
  tag "doc" [tag "p" [Text "x"; anchor "#footnote-1"];
             footnote_div "#footnote-anchor-1" [Text "n"]].

(** Footnotes defined in the order 3, 10, 1, 2. *)
Definition doc_notes_3_10_1_2 : Node :=
  tag "doc" [tag "p" [Text "Body"];
             footnote_div "#footnote-anchor-3" [Text "c"];
             footnote_div "#footnote-anchor-10" [Text "j"];
             footnote_div "#footnote-anchor-1" [Text "a"];
             footnote_div "#footnote-anchor-2" [Text "b"]].

(** An image container: the leaf on the interim storage, the wrapping link
    on the delivery host. *)
Definition image_container : Node :=
  Element "div" ∅ ["captioned-image-container"]
    [Element "a"
       {[ "href" := "https://substackcdn.com/image/fetch/pic.png" ]}
       ["image-link"]
       [Element "img"
          {[ "src" := "https://bucketeer-1234.s3.amazonaws.com/pic.png" ]}
          [] []]].

(** The separator line and the three line breaks that follow it in the
    joined text: the end of the separator block and the joint. *)
Definition rule_gap : string := "---" +:+ NL +:+ NL2.

(** Every content of the dictionary is right-trimmed. *)
Definition trimmed (refs : Registry) : Prop :=
  map_Forall (fun _ content => rstrip content = content) refs.

(** ** parse_html.py: the files *)

Module Files.

(** A row of [posts.csv], with the columns [load_post_metadata] reads.
    The table has these columns and every row is as long as the header:
    [csv.DictReader] gives a string for each. *)
Record csv_row : Type :=
  { row_post_id : string; row_title : string; row_subtitle : string;
    row_post_date : string }.

(** An entry of the metadata dictionary. *)
Record post_meta : Type :=
  { meta_title : string; meta_subtitle : string; meta_post_date : string }.

Definition load_post_metadata (rows : list csv_row)
    : gmap string post_meta :=
  foldl (fun metadata row =>
           <[row_post_id row :=
               {| meta_title := row_title row;
                  meta_subtitle := row_subtitle row;
                  meta_post_date := row_post_date row |}]> metadata)
        ∅ rows.

(** [convert_file]: [input] is what opening and reading the input file
    as UTF-8 gives, the tree that the parser makes of its content or the
    exception raised; [filename] is the stem of the file.  The result is
    what is written to the output file, whose directory [main] has
    created: nothing is written when the read or the conversion raises,
    since the output file is opened after both. *)
Definition convert_file (input : result Node) (filename : string)
    (post_metadata : gmap string post_meta) : result string :=
  match input with
  | Ok html_content =>
      let title := meta_title <$> post_metadata !! filename in
      let subtitle := meta_subtitle <$> post_metadata !! filename in
      convert_html_to_markdown html_content title subtitle
  | Raise e => Raise e
  end.

(** The loop of [main] over the HTML files: the files written, in order.
    A file whose read or conversion raises is reported and skipped
    ([except Exception]). *)
Fixpoint convert_all (html_files : list (string * result Node))
    (post_metadata : gmap string post_meta) : list (string * string) :=
  match html_files with
  | [] => []
  | (stem, input) :: rest =>
      match convert_file input stem post_metadata with
      | Ok markdown_content =>
          (stem +:+ ".md", markdown_content) :: convert_all rest post_metadata
      | Raise _ => convert_all rest post_metadata
      end
  end.

(** [main]: [posts_dir] is the content of the posts directory of the
    export (for each HTML file its stem and what reading it gives) when
    the directory exists, [csv] the rows of [posts.csv] when the file
    exists.  The result is the value returned and the files written. *)
Definition main (posts_dir : option (list (string * result Node)))
    (csv : option (list csv_row)) : Z * list (string * string) :=
  match posts_dir with
  | None => (1%Z, [])
  | Some html_files =>
      match csv with
      | None => (1%Z, [])
      | Some rows => (0%Z, convert_all html_files (load_post_metadata rows))
      end
  end.


(** A directory with a post, a file that is not UTF-8, a post whose
    footnote numeral is beyond the limit of [int], and a last post. *)
Definition dir_with_failures : list (string * result Node) :=
  [("1.first", Ok (tag "doc" [tag "p" [Text "one"]]));
   ("2.latin1", Raise (UnicodeDecodeError "invalid start byte"));
   ("3.numeral", Ok doc_over_limit);
   ("4.last", Ok (tag "doc" [tag "p" [Text "four"]]))].

(** The entry made from a row. *)
Definition meta_of_row (row : csv_row) : post_meta :=
  {| meta_title := row_title row; meta_subtitle := row_subtitle row;
     meta_post_date := row_post_date row |}.

End Files.

(** ** convert_to_jsonl.py *)

Module Jsonl.

(** A row of [posts.csv]: the four columns that are indexed, and the
    three that are read with [row.get] and may be absent.  The table has
    the four columns and every row is as long as the header:
    [csv.DictReader] gives a string for each. *)
Record csv_row : Type :=
  { row_post_id : string; row_post_date : string; row_title : string;
    row_subtitle : string; row_is_published : option string;
    row_type : option string; row_audience : option string }.

(** An entry of the dictionary of [load_posts_metadata]. *)
Record post_meta : Type :=
  { post_id : string; post_date : string; title : string; subtitle : string;
    is_published : string; type : string; audience : string }.

Definition load_posts_metadata (rows : list csv_row) : gmap string post_meta :=
  foldl (fun posts row =>
           <[row_post_id row :=
               {| post_id := row_post_id row;
                  post_date := row_post_date row;
                  title := row_title row;
                  subtitle := row_subtitle row;
                  is_published := default "" (row_is_published row);
                  type := default "" (row_type row);
                  audience := default "" (row_audience row) |}]> posts)
        ∅ rows.

(** An entry of [jsonl_entries]. *)
Record entry : Type :=
  { entry_post_id : string; entry_post_date : string; entry_title : string;
    entry_subtitle : string; entry_content : string }.

(** The state of the loop over the Markdown files. *)
Record progress : Type :=
  { jsonl_entries : list entry; processed_count : nat; missing_count : nat }.

(** The loop over the Markdown files: [markdown_files] gives the stem of
    each file and its content, [None] when reading it raises. *)
Fixpoint collect (posts_metadata : gmap string post_meta)
    (markdown_files : list (string * option string)) (state : progress)
    : progress :=
  match markdown_files with
  | [] => state
  | (stem, file) :: rest =>
      match posts_metadata !! stem with
      | None =>
          collect posts_metadata rest
            {| jsonl_entries := jsonl_entries state;
               processed_count := processed_count state;
               missing_count := S (missing_count state) |}
      | Some meta =>
          match file with
          | None => collect posts_metadata rest state
          | Some content =>
              collect posts_metadata rest
                {| jsonl_entries :=
                     jsonl_entries state
                       ++ [{| entry_post_id := stem;
                              entry_post_date := post_date meta;
                              entry_title := title meta;
                              entry_subtitle := subtitle meta;
                              entry_content := content |}];
                   processed_count := S (processed_count state);
                   missing_count := missing_count state |}
          end
      end
  end.

(** The order of [sort(key=post_date, reverse=True)]: a later date
    first. *)
Definition newer (a b : entry) : Prop :=
  String.le (entry_post_date b) (entry_post_date a).

#[global] Instance newer_dec : RelDecision newer :=
  fun a b => decide (String.le (entry_post_date b) (entry_post_date a)).

(** The quotation mark and the backslash. *)
Definition quote : string := String "034" "".
Definition backslash : string := String "092" "".

(** One lowercase hexadecimal digit. *)
Definition hex_digit (n : N) : ascii :=
  default "0"%char (String.get (N.to_nat n) "0123456789abcdef").

(** The replacement of one character in a JSON string, as [json.dumps]
    does it with [ensure_ascii=False]: the quote, the backslash and the
    characters below 32 are escaped, every other character stands for
    itself. *)
Definition escape_char (c : ascii) : string :=
  if bool_decide (c = "034"%char) then backslash +:+ quote
  else if bool_decide (c = "092"%char) then backslash +:+ backslash
  else if bool_decide (c = "010"%char) then backslash +:+ "n"
  else if bool_decide (c = "013"%char) then backslash +:+ "r"
  else if bool_decide (c = "009"%char) then backslash +:+ "t"
  else if bool_decide (c = "008"%char) then backslash +:+ "b"
  else if bool_decide (c = "012"%char) then backslash +:+ "f"
  else if (N_of_ascii c <? 32)%N then
    backslash +:+ "u00"
      +:+ String (hex_digit (N_of_ascii c / 16)) ""
      +:+ String (hex_digit (N_of_ascii c mod 16)) ""
  else String c "".

Fixpoint escape (s : string) : string :=
  match s with
  | "" => ""
  | String c s' => escape_char c +:+ escape s'
  end.

(** A JSON string. *)
Definition encode_basestring (s : string) : string :=
  quote +:+ escape s +:+ quote.

(** A key and its value, as [json.dumps] writes them. *)
Definition member (key value : string) : string :=
  quote +:+ key +:+ quote +:+ ": " +:+ encode_basestring value.

(** [json.dumps(entry, ensure_ascii=False)] *)
Definition dumps (e : entry) : string :=
  "{" +:+ member "post_id" (entry_post_id e)
      +:+ ", " +:+ member "post_date" (entry_post_date e)
      +:+ ", " +:+ member "title" (entry_title e)
      +:+ ", " +:+ member "subtitle" (entry_subtitle e)
      +:+ ", " +:+ member "content" (entry_content e) +:+ "}".

(** What is written to [posts.jsonl]. *)
Fixpoint write_lines (entries : list entry) : string :=
  match entries with
  | [] => ""
  | e :: rest => (dumps e +:+ NL) +:+ write_lines rest
  end.

(** The outcome of [main] when the table exists: the file written and the
    two counts reported. *)
Record report : Type :=
  { jsonl : string; processed : nat; missing : nat }.

(** [main]: [csv] is the rows of [posts.csv] when the file exists;
    [None] stands for the early [return 1], where nothing is written. *)
Definition main (csv : option (list csv_row))
    (markdown_files : list (string * option string)) : option report :=
  match csv with
  | None => None
  | Some rows =>
      let posts_metadata := load_posts_metadata rows in
      let state :=
        collect posts_metadata markdown_files
          {| jsonl_entries := []; processed_count := 0; missing_count := 0 |}
      in
      Some {| jsonl := write_lines (sorted newer (jsonl_entries state));
              processed := processed_count state;
              missing := missing_count state |}
  end.

(** The number of occurrences of a character. *)
Fixpoint count_char (c : ascii) (s : string) : nat :=
  match s with
  | "" => 0
  | String d s' => (if bool_decide (d = c) then 1 else 0) + count_char c s'
  end.

(** No character of the string is below 32. *)
Fixpoint no_control (s : string) : bool :=
  match s with
  | "" => true
  | String c s' => negb (N_of_ascii c <? 32)%N && no_control s'
  end.

End Jsonl.

(** ** process_export.py *)

Module Pipeline.

(** The steps of the pipeline: description and script. *)
Definition steps : list (string * string) :=
  [("Step 1/3: Converting HTML to Markdown", "parse_html.py");
   ("Step 2/3: Converting to JSONL", "convert_to_jsonl.py");
   ("Step 3/3: Batching by quarter", "batch_by_quarter.py")].

(** The loop of [main] over the steps.  [run_script] tells whether the
    script ends with exit status 0.  The result is the value returned and
    the scripts that were run, in order. *)
Fixpoint run_steps (run_script : string -> bool)
    (steps : list (string * string)) : Z * list string :=
  match steps with
  | [] => (0%Z, [])
  | (description, script_name) :: rest =>
      if run_script script_name then
        let (code, ran) := run_steps run_script rest in
        (code, script_name :: ran)
      else (1%Z, [script_name])
  end.

Definition main (run_script : string -> bool) : Z * list string :=
  run_steps run_script steps.

End Pipeline.

(** The record made of a Markdown file: none when the stem has no
    metadata or the file cannot be read. *)
Definition jsonl_entry_of (posts_metadata : gmap string Jsonl.post_meta)
    (file : string * option string) : option Jsonl.entry :=
  match posts_metadata !! file.1, file.2 with
  | Some meta, Some content =>
      Some {| Jsonl.entry_post_id := file.1;
              Jsonl.entry_post_date := Jsonl.post_date meta;
              Jsonl.entry_title := Jsonl.title meta;
              Jsonl.entry_subtitle := Jsonl.subtitle meta;
              Jsonl.entry_content := content |}
  | _, _ => None
  end.

(** The character [c] does not occur in [s]. *)
Fixpoint lacks (c : ascii) (s : string) : bool :=
  match s with
  | "" => true
  | String d s' => negb (bool_decide (d = c)) && lacks c s'
  end.

(** ** Predicates of the further properties *)

(** No tag below the node marks up inline text: none is a link, an
    emphasis, a strong or a code element. *)
Fixpoint plain_text (n : Node) : bool :=
  match n with
  | Text _ => true
  | Element name _ _ children =>
      negb (bool_decide (name ∈ ["a"; "em"; "strong"; "code"]))
      && forallb plain_text children
  end.

(** The traversal of [process_element] reaches a footnote division in the
    node: the node is one, or it is a plain division with a child where
    the traversal reaches one. *)
Fixpoint reaches_footnote (n : Node) : bool :=
  match n with
  | Text _ => false
  | Element name _ class children =>
      bool_decide (name = "div")
      && negb (bool_decide ("captioned-image-container" ∈ class))
      && (bool_decide ("footnote" ∈ class)
          || existsb (fun c => name_truthy c && reaches_footnote c) children)
  end.

(** A top-level child that the loop of [convert_html_to_markdown] passes
    over: a text node, or a tag that is no heading, paragraph, blockquote
    or division. *)
Definition passed_over (n : Node) : Prop :=
  match n with
  | Text _ => True
  | Element name _ _ _ =>
      name ∉ ["h1"; "h2"; "h3"; "p"; "blockquote"; "div"]
  end.

(** A footnote division: a [div] of class [footnote] that is no image
    container. *)
Definition footnote_division (n : Node) : Prop :=
  match n with
  | Text _ => False
  | Element name _ class _ =>
      name = "div" /\ "footnote" ∈ class
      /\ "captioned-image-container" ∉ class
  end.

(** * Properties *)

(** ** Strings *)

#[local] Arguments String.append !s1 s2 : simpl nomatch.

Lemma sapp_nil_r (s : string) : s +:+ "" = s.
Proof. induction s as [|c s IH]; simpl; [done | by rewrite IH]. Qed.

Lemma sapp_assoc (a b c : string) : (a +:+ b) +:+ c = a +:+ b +:+ c.
Proof. induction a as [|x a IH]; simpl; [done | by rewrite IH]. Qed.

Lemma sapp_eq_nil (a b : string) : a +:+ b = "" -> a = "" /\ b = "".
Proof. destruct a; simpl; [done | discriminate]. Qed.

Lemma lstrip_app_l (a b : string) :
  lstrip a <> "" -> lstrip (a +:+ b) = lstrip a +:+ b.
Proof.
  induction a as [|c a IH]; simpl; [done|].
  destruct (isspace c); [exact IH | done].
Qed.

Lemma lstrip_app_blank (a b : string) :
  lstrip a = "" -> lstrip (a +:+ b) = lstrip b.
Proof.
  induction a as [|c a IH]; simpl; [done|].
  destruct (isspace c); [exact IH | discriminate].
Qed.

Lemma lstrip_first (s : string) (c : ascii) :
  first_char (lstrip s) = Some c -> isspace c = false.
Proof.
  induction s as [|x s IH]; simpl; [discriminate|].
  destruct (isspace x) eqn:E; [exact IH|].
  simpl. intros [= <-]. exact E.
Qed.

Lemma rstrip_cons_nonspace (c : ascii) (s : string) :
  isspace c = false -> rstrip (String c s) = String c (rstrip s).
Proof. intros E. simpl. rewrite E. by destruct (rstrip s). Qed.

Lemma rstrip_app_r (a b : string) :
  rstrip b <> "" -> rstrip (a +:+ b) = a +:+ rstrip b.
Proof.
  intros Hb. induction a as [|c a IH]; simpl; [done|].
  rewrite IH. destruct (a +:+ rstrip b) eqn:E; [|done].
  by apply sapp_eq_nil in E as [_ ?].
Qed.

Lemma rstrip_app_blank (a b : string) :
  rstrip b = "" -> rstrip (a +:+ b) = rstrip a.
Proof.
  intros Hb. induction a as [|c a IH]; simpl; [done|]. by rewrite IH.
Qed.

Lemma rstrip_first (s : string) (c : ascii) :
  first_char (rstrip s) = Some c -> first_char s = Some c.
Proof.
  destruct s as [|x s]; simpl; [done|].
  destruct (rstrip s); [destruct (isspace x)|]; simpl; done.
Qed.

Lemma rstrip_last (s : string) (c : ascii) :
  last_char (rstrip s) = Some c -> isspace c = false.
Proof.
  revert c. induction s as [|x s IH]; intros c; simpl; [discriminate|].
  destruct (rstrip s) as [|y r] eqn:E.
  - destruct (isspace x) eqn:Ex; simpl; [discriminate|]. by intros [= <-].
  - change (last_char (String x (String y r)))
      with (match last_char (String y r) with
            | None => Some x | Some d => Some d end).
    destruct (last_char (String y r)) as [d|] eqn:El.
    + intros [= <-]. by apply IH.
    + simpl in El. by destruct (last_char r).
Qed.

Lemma rstrip_idem (s : string) : rstrip (rstrip s) = rstrip s.
Proof.
  induction s as [|x s IH]; simpl; [done|].
  destruct (rstrip s) as [|y r] eqn:E.
  - destruct (isspace x) eqn:Ex; simpl; [done | by rewrite Ex].
  - change (rstrip (String x (String y r)))
      with (match rstrip (String y r) with
            | "" => if isspace x then "" else String x ""
            | r' => String x r' end).
    by rewrite IH.
Qed.

Lemma lstrip_idem (s : string) : lstrip (lstrip s) = lstrip s.
Proof.
  induction s as [|x s IH]; simpl; [done|].
  destruct (isspace x) eqn:Ex; [done | simpl; by rewrite Ex].
Qed.

(** The result of [strip] starts and ends with a character that is not
    whitespace (when it has one). *)
Lemma strip_first (s : string) (c : ascii) :
  first_char (strip s) = Some c -> isspace c = false.
Proof. intros H. apply rstrip_first in H. by apply lstrip_first in H. Qed.

Lemma strip_last (s : string) (c : ascii) :
  last_char (strip s) = Some c -> isspace c = false.
Proof. apply rstrip_last. Qed.

Lemma rstrip_strip (s : string) : rstrip (strip s) = strip s.
Proof. apply rstrip_idem. Qed.

Lemma join_cons (sep x : string) (l : list string) :
  l <> [] -> join sep (x :: l) = x +:+ sep +:+ join sep l.
Proof. by destruct l. Qed.

Lemma join_app_cons (sep : string) (l : list string) (x : string)
    (r : list string) :
  join sep (l ++ x :: r) =
  join sep (l ++ [""]) +:+ x +:+
  match r with [] => "" | _ => sep +:+ join sep r end.
Proof.
  induction l as [|y l IH].
  - destruct r; simpl; [by rewrite sapp_nil_r | done].
  - rewrite <- !app_comm_cons.
    rewrite !join_cons by (by destruct l).
    by rewrite IH, !sapp_assoc.
Qed.

Lemma join_snoc_nil (sep : string) (l : list string) :
  l <> [] -> join sep (l ++ [""]) = join sep l +:+ sep.
Proof.
  induction l as [|x l IH]; [done|]. intros _.
  rewrite <- app_comm_cons, join_cons by (by destruct l).
  destruct l as [|y l].
  - simpl. by rewrite sapp_nil_r.
  - rewrite IH, (join_cons sep x (y :: l)) by done. by rewrite !sapp_assoc.
Qed.

Lemma join_nil (sep : string) (l : list string) :
  join "" l = foldr String.append "" l.
Proof.
  induction l as [|x l IH]; [done|].
  simpl. destruct l; [by rewrite sapp_nil_r|].
  by rewrite <- IH.
Qed.

Lemma join_nil_app (l1 l2 : list string) :
  join "" (l1 ++ l2) = join "" l1 +:+ join "" l2.
Proof.
  rewrite !(join_nil ""). induction l1 as [|x l1 IH]; simpl; [done|].
  by rewrite IH, sapp_assoc.
Qed.

Lemma endswith_refl (s : string) : endswith s s = true.
Proof.
  destruct s as [|c s]; [done|].
  change (bool_decide (String c s = String c s) || endswith (String c s) s
          = true).
  by rewrite bool_decide_eq_true_2.
Qed.

Lemma endswith_app (pre suffix : string) :
  endswith suffix (pre +:+ suffix) = true.
Proof.
  induction pre as [|c pre IH]; simpl; [apply endswith_refl|].
  rewrite IH. apply orb_true_r.
Qed.

(** ** The pattern search *)

Lemma startswith_app (p s : string) : startswith p (p +:+ s) = true.
Proof.
  induction p as [|c p IH]; simpl; [done|].
  by rewrite bool_decide_eq_true_2, IH.
Qed.

Lemma drop_app (p s : string) : drop (String.length p) (p +:+ s) = s.
Proof. induction p as [|c p IH]; simpl; [by destruct s | exact IH]. Qed.

Lemma startswith_split (p s : string) :
  startswith p s = true -> s = p +:+ drop (String.length p) s.
Proof.
  revert s. induction p as [|c p IH]; intros [|d s]; simpl; try done.
  intros [Hc Hp]%andb_true_iff. apply bool_decide_eq_true in Hc as ->.
  f_equal. by apply IH.
Qed.

Lemma take_digits_all (s : string) : all_digits (take_digits s) = true.
Proof.
  induction s as [|c s IH]; simpl; [done|].
  destruct (isdigit c) eqn:E; simpl; [by rewrite E | done].
Qed.

Lemma take_digits_split (s : string) :
  exists post, s = take_digits s +:+ post
    /\ (forall c, first_char post = Some c -> isdigit c = false).
Proof.
  induction s as [|c s (post & Hs & Hpost)]; simpl.
  - by exists "".
  - destruct (isdigit c) eqn:E.
    + exists post. split; [simpl; by f_equal | done].
    + exists (String c s). split; [done|]. simpl. by intros ? [= <-].
Qed.

Lemma take_digits_app (ds post : string) :
  all_digits ds = true -> take_digits (ds +:+ post) = ds +:+ take_digits post.
Proof.
  induction ds as [|c ds IH]; simpl; [done|].
  intros [Hc Hds]%andb_true_iff. rewrite Hc. by rewrite IH.
Qed.

Lemma match_here_sound (lit s ds : string) :
  match_here lit s = Some ds ->
  ds <> "" /\ all_digits ds = true /\
  exists post, s = lit +:+ ds +:+ post
    /\ (forall c, first_char post = Some c -> isdigit c = false).
Proof.
  unfold match_here. destruct (startswith lit s) eqn:Hp; [|done].
  destruct (take_digits_split (drop (String.length lit) s))
    as (post & Hsplit & Hpost).
  pose proof (take_digits_all (drop (String.length lit) s)) as Hall.
  destruct (take_digits (drop (String.length lit) s)) as [|c r] eqn:E; [done|].
  intros [= <-]. split; [done|]. split; [done|].
  exists post. split; [|done].
  rewrite <- Hsplit. by apply startswith_split.
Qed.

Lemma match_here_complete (lit ds post : string) :
  ds <> "" -> all_digits ds = true ->
  exists ds', match_here lit (lit +:+ ds +:+ post) = Some ds'.
Proof.
  intros Hne Hall. unfold match_here.
  rewrite startswith_app, drop_app, take_digits_app by done.
  destruct ds as [|c ds]; [done|]. simpl. eauto.
Qed.

(** What [re_search] returns is the digit run of the leftmost place where
    the literal is followed by a digit, taken as far as it goes. *)
Lemma re_search_sound (lit s ds : string) :
  re_search lit s = Some ds ->
  ds <> "" /\ all_digits ds = true /\
  exists pre post, s = pre +:+ lit +:+ ds +:+ post
    /\ (forall c, first_char post = Some c -> isdigit c = false)
    /\ (forall pre' ds' post', s = pre' +:+ lit +:+ ds' +:+ post' ->
          ds' <> "" -> all_digits ds' = true ->
          String.length pre <= String.length pre').
Proof.
  revert ds. induction s as [|c s IH]; intros ds; simpl.
  - destruct (match_here lit "") as [ds0|] eqn:E; [|done].
    intros [= <-]. apply match_here_sound in E as (? & ? & post & ? & ?).
    do 2 (split; [done|]). exists "", post. simpl.
    do 2 (split; [done|]). intros. lia.
  - destruct (match_here lit (String c s)) as [ds0|] eqn:E.
    + intros [= <-]. apply match_here_sound in E as (? & ? & post & ? & ?).
      do 2 (split; [done|]). exists "", post. simpl.
      do 2 (split; [done|]). intros. lia.
    + intros (Hne & Hall & pre & post & -> & Hpost & Hleft)%IH.
      do 2 (split; [done|]). exists (String c pre), post.
      do 2 (split; [done|]). intros [|c' pre'] ds' post' Heq Hne' Hall'.
      * simpl in Heq. rewrite Heq in E.
        destruct (match_here_complete lit ds' post' Hne' Hall') as [? ?].
        congruence.
      * simpl in Heq. injection Heq as -> Heq.
        specialize (Hleft _ _ _ Heq Hne' Hall'). simpl. lia.
Qed.

Lemma re_search_complete (lit pre ds post : string) :
  ds <> "" -> all_digits ds = true ->
  exists ds', re_search lit (pre +:+ lit +:+ ds +:+ post) = Some ds'.
Proof.
  intros Hne Hall. induction pre as [|c pre [ds' IH]].
  - destruct (match_here_complete lit ds post Hne Hall) as [ds' E].
    exists ds'. simpl. destruct (lit +:+ ds +:+ post); simpl; by rewrite E.
  - simpl. destruct (match_here lit _); eauto.
Qed.

(** ** Integer conversion *)

Lemma digit_value_isdigit (c : ascii) :
  isdigit c = true -> exists d, digit_value c = Some d.
Proof. unfold digit_value. intros ->. eauto. Qed.

Lemma int_digits_total (ds : string) (acc : N) :
  all_digits ds = true -> exists n, int_digits acc ds = Some n.
Proof.
  revert acc. induction ds as [|c ds IH]; intros acc; simpl; [eauto|].
  intros [[d ->]%digit_value_isdigit Hds]%andb_true_iff. by apply IH.
Qed.

Lemma take_digits_fixed (ds : string) :
  all_digits ds = true -> take_digits ds = ds.
Proof.
  induction ds as [|c ds IH]; [done|]. cbn [all_digits take_digits].
  intros [-> Hds]%andb_true_iff. by rewrite IH.
Qed.

(** [int] does not raise on a captured digit run within the limit. *)
Lemma int_ok (ds : string) :
  ds <> "" -> all_digits ds = true ->
  (int_max_str_digits <? String.length ds)%nat = false ->
  exists n, int ds = Ok n.
Proof.
  intros Hne Hall Hlen. destruct (int_digits_total ds 0 Hall) as [n Hn].
  exists n. unfold int. destruct ds; [done|].
  by rewrite take_digits_fixed, Hlen, Hn.
Qed.

(** [int] raises on a digit run beyond the limit. *)
Lemma int_over (ds : string) :
  all_digits ds = true ->
  (int_max_str_digits <? String.length ds)%nat = true ->
  int ds = Raise digit_limit_exceeded.
Proof.
  intros Hall Hlen. unfold int. destruct ds; [done|].
  by rewrite take_digits_fixed, Hlen.
Qed.

Lemma int_of_search (lit s ds : string) :
  re_search lit s = Some ds ->
  (int_max_str_digits <? String.length ds)%nat = false ->
  exists n, int ds = Ok n.
Proof. intros (? & ? & _)%re_search_sound. by apply int_ok. Qed.

Lemma int_over_search (lit s ds : string) :
  re_search lit s = Some ds ->
  (int_max_str_digits <? String.length ds)%nat = true ->
  int ds = Raise digit_limit_exceeded.
Proof. intros (? & ? & _)%re_search_sound. by apply int_over. Qed.

(** ** Sorting *)

Section sorting_facts.
Context {A : Type} (R : relation A) `{!RelDecision R}.

Lemma insort_Permutation (x : A) (l : list A) : insort R x l ≡ₚ x :: l.
Proof.
  induction l as [|y l IH]; simpl; [done|].
  destruct (decide (R x y)); [done|].
  rewrite IH. apply Permutation_swap.
Qed.

Lemma sorted_Permutation (l : list A) : sorted R l ≡ₚ l.
Proof.
  induction l as [|x l IH]; simpl; [done|].
  by rewrite insort_Permutation, IH.
Qed.

Lemma HdRel_insort `{!Total R} (a x : A) (l : list A) :
  R a x -> HdRel R a l -> HdRel R a (insort R x l).
Proof.
  intros Hax Hl. destruct l as [|y l]; simpl; [by constructor|].
  destruct (decide (R x y)); constructor; [done|].
  by inversion Hl.
Qed.

Lemma Sorted_insort `{!Total R} (x : A) (l : list A) :
  Sorted R l -> Sorted R (insort R x l).
Proof.
  induction 1 as [|y l Hl IH Hhd]; simpl; [by repeat constructor|].
  destruct (decide (R x y)) as [Hxy|Hxy].
  - by repeat constructor.
  - constructor; [done|]. apply HdRel_insort; [|done].
    by destruct (total R x y).
Qed.

Lemma Sorted_sorted `{!Total R} (l : list A) : Sorted R (sorted R l).
Proof.
  induction l as [|x l IH]; simpl; [constructor | by apply Sorted_insort].
Qed.
End sorting_facts.

(** ** Induction on the tree *)

Lemma Node_children_ind (P : Node -> Prop) :
  (forall s, P (Text s)) ->
  (forall name attrs class children,
      Forall P children -> P (Element name attrs class children)) ->
  forall n, P n.
Proof.
  intros HText HElement. fix IH 1.
  intros [s|name attrs class children]; [apply HText|].
  apply HElement.
  induction children as [|c cs IHcs]; constructor; [apply IH | exact IHcs].
Qed.

Ltac branches :=
  repeat match goal with
         | |- context [if bool_decide ?P then _ else _] =>
             destruct (bool_decide P) eqn:?
         end.

Ltac run := unfold bind, get_refs, ret, store, lift; cbn beta iota zeta.

(** ** The counter and the dictionary argument are never read *)

Lemma inline_piece_ext (rec1 rec2 : Node -> string) (child : Node) :
  rec1 child = rec2 child -> inline_piece rec1 child = inline_piece rec2 child.
Proof. destruct child; [done|]. unfold inline_piece. by intros ->. Qed.

Lemma get_text_content_args (n : Node) (refs1 refs2 : Registry) (c1 c2 : Z) :
  get_text_content n refs1 c1 = get_text_content n refs2 c2.
Proof.
  induction n as [s|name attrs class children IH] using Node_children_ind;
    [done|].
  cbn [get_text_content]. f_equal.
  induction IH as [|child rest Hchild _ IHrest]; simpl; [done|].
  rewrite IHrest. f_equal. by apply inline_piece_ext.
Qed.

Lemma handle_footnote_definition_counter (element : Node) (c1 c2 : Z)
    (refs : Registry) :
  handle_footnote_definition element c1 refs
  = handle_footnote_definition element c2 refs.
Proof.
  unfold handle_footnote_definition.
  destruct (find_class "a" "footnote-number" element); [|done].
  destruct (re_search _ _); [|done]. run.
  destruct (int _); [|done].
  destruct (find_class "div" "footnote-content" element); [|done].
  by rewrite (get_text_content_args _ ∅ ∅ c1 c2).
Qed.

Lemma each_child_ext (f g : Node -> M (option string)) (children : list Node) :
  Forall (fun c => forall refs, f c refs = g c refs) children ->
  forall refs, each_child f children refs = each_child g children refs.
Proof.
  induction 1 as [|child rest Hchild _ IH]; intros refs; simpl; [done|].
  destruct (name_truthy child); [|apply IH].
  unfold bind. rewrite Hchild.
  destruct (g child refs) as [[r refs1]|]; [|done].
  by rewrite IH.
Qed.

Lemma process_element_counter (element : Node) (c1 c2 : Z) :
  forall refs, process_element element c1 refs = process_element element c2 refs.
Proof.
  induction element as [s|name attrs class children IH]
    using Node_children_ind; intros refs; [done|].
  cbn [process_element]. branches; run;
    rewrite ?(get_text_content_args _ refs refs c1 c2); try done.
  - do 4 f_equal. apply map_ext. intros child.
    by rewrite (get_text_content_args _ refs refs c1 c2).
  - apply handle_footnote_definition_counter.
  - by rewrite (each_child_ext _ _ _ IH).
Qed.

Lemma walk_children_counter (next1 next2 : Registry -> Z)
    (children : list Node) :
  forall c1 c2 refs,
    walk_children next1 children c1 refs = walk_children next2 children c2 refs.
Proof.
  induction children as [|element rest IH]; intros c1 c2 refs; simpl; [done|].
  destruct element as [s|name attrs class kids]; [apply IH|].
  unfold bind. rewrite (process_element_counter _ c1 c2).
  destruct (process_element _ c2 refs) as [[[s|] refs1]|].
  - destruct (truthy s); [|apply IH]. run.
    by rewrite (IH (next1 refs1) (next2 refs1)).
  - apply IH.
  - done.
Qed.

(** ** The transducer returns *)

Lemma int_digits_of_int (ds : string) (n : N) :
  int ds = Ok n -> int_digits 0 ds = Some n.
Proof.
  unfold int. destruct ds; [done|].
  destruct (_ <? _)%nat; [done|].
  destruct (int_digits 0 _); [by intros [= ->] | done].
Qed.

(** The footnote handler, in one equation: it raises on a digit run beyond
    the limit of [int], and otherwise returns nothing, having stored the
    content when there is a numeral and a content division. *)
Lemma handle_footnote_definition_eq (element : Node) (counter : Z)
    (refs : Registry) :
  handle_footnote_definition element counter refs =
  if exceeds_limit element then Raise digit_limit_exceeded
  else
    Ok (None,
        match footnote_numeral element,
              find_class "div" "footnote-content" element with
        | Some n, Some content_elem =>
            <[n := strip (get_text_content content_elem ∅ counter)]> refs
        | _, _ => refs
        end).
Proof.
  unfold handle_footnote_definition, footnote_numeral, exceeds_limit,
    footnote_digits.
  destruct (find_class "a" "footnote-number" element) as [link|]; [|done].
  destruct (re_search _ _) as [ds|] eqn:Hsearch; [|done].
  destruct (int_max_str_digits <? String.length ds)%nat eqn:Hlen; run.
  - by rewrite (int_over_search _ _ _ Hsearch Hlen).
  - destruct (int_of_search _ _ _ Hsearch Hlen) as [n ->].
    by destruct (find_class "div" "footnote-content" element).
Qed.

(** The handler when it returns. *)
Lemma handle_footnote_definition_Ok (element : Node) (counter : Z)
    (refs refs' : Registry) (r : option string) :
  handle_footnote_definition element counter refs = Ok (r, refs') ->
  exceeds_limit element = false
  /\ r = None
  /\ refs' = match footnote_numeral element,
                   find_class "div" "footnote-content" element with
             | Some n, Some content_elem =>
                 <[n := strip (get_text_content content_elem ∅ counter)]> refs
             | _, _ => refs
             end.
Proof.
  rewrite handle_footnote_definition_eq.
  destruct (exceeds_limit element); [done|]. by intros [= <- <-].
Qed.

(** The loop of the plain division raises when a child tag does, and
    returns otherwise. *)
Lemma each_child_outcome (f : Node -> M (option string)) (children : list Node) :
  Forall (fun c => forall refs,
              if over_limit c then f c refs = Raise digit_limit_exceeded
              else exists r refs', f c refs = Ok (r, refs'))
         children ->
  forall refs,
    if existsb (fun c => name_truthy c && over_limit c) children
    then each_child f children refs = Raise digit_limit_exceeded
    else exists rs refs', each_child f children refs = Ok (rs, refs').
Proof.
  induction 1 as [|child rest Hchild _ IH]; intros refs; cbn [existsb each_child].
  - by exists [], refs.
  - destruct (name_truthy child); cbn [andb orb]; [|apply IH].
    unfold bind. specialize (Hchild refs).
    destruct (over_limit child); cbn [orb].
    + by rewrite Hchild.
    + destruct Hchild as (r & refs1 & ->). specialize (IH refs1).
      destruct (existsb _ rest).
      * by rewrite IH.
      * destruct IH as (rs & refs2 & ->). run. eauto.
Qed.

(** The [div] branch of the transducer. *)
Lemma process_element_div (attrs : gmap string string) (class : list string)
    (children : list Node) (counter : Z) :
  process_element (Element "div" attrs class children) counter
  = if bool_decide ("captioned-image-container" ∈ class) then
      ret (handle_image (Element "div" attrs class children))
    else if bool_decide ("footnote" ∈ class) then
      handle_footnote_definition (Element "div" attrs class children) counter
    else
      do results <- each_child (fun c => process_element c counter) children ;;
      ret (match results with
           | [] => None
           | _ => Some (join NL2 results)
           end).
Proof. reflexivity. Qed.

(** The transducer raises exactly when its traversal reaches a footnote
    division whose digit run is beyond the limit of [int]; on every other
    node it returns. *)
Lemma process_element_outcome (element : Node) (counter : Z) :
  forall refs,
    if over_limit element
    then process_element element counter refs = Raise digit_limit_exceeded
    else exists r refs', process_element element counter refs = Ok (r, refs').
Proof.
  induction element as [s|name attrs class children IH]
    using Node_children_ind; intros refs; [cbn; eauto|].
  destruct (decide (name = "div")) as [->|Hdiv].
  - rewrite process_element_div. cbn [over_limit].
    rewrite (bool_decide_eq_true_2 ("div" = "div")) by done. cbn [andb].
    destruct (bool_decide ("captioned-image-container" ∈ class));
      cbn [negb andb]; [run; eauto|].
    destruct (bool_decide ("footnote" ∈ class)).
    + rewrite handle_footnote_definition_eq.
      destruct (exceeds_limit _); eauto.
    + pose proof (each_child_outcome (fun c => process_element c counter)
                    _ IH refs) as Hloop.
      unfold bind. destruct (existsb _ children).
      * by rewrite Hloop.
      * destruct Hloop as (rs & refs' & ->). run. eauto.
  - cbn [process_element over_limit].
    rewrite (bool_decide_eq_false_2 (name = "div")) by done. cbn [andb].
    branches; run; eauto.
Qed.

Lemma process_element_total (element : Node) (counter : Z) (refs : Registry) :
  over_limit element = false ->
  exists r refs', process_element element counter refs = Ok (r, refs').
Proof.
  intros Hlimit. pose proof (process_element_outcome element counter refs) as H.
  by rewrite Hlimit in H.
Qed.


(** The loop over the top-level children raises when the transducer does
    on one of them, and returns otherwise. *)
Lemma walk_children_outcome (next : Registry -> Z) (children : list Node) :
  forall counter refs,
    if existsb over_limit children
    then walk_children next children counter refs = Raise digit_limit_exceeded
    else exists blocks refs', walk_children next children counter refs
                              = Ok (blocks, refs').
Proof.
  induction children as [|element rest IH]; intros counter refs;
    cbn [existsb walk_children].
  - by exists [], refs.
  - destruct element as [s|name attrs class kids]; [apply IH|].
    unfold bind.
    pose proof (process_element_outcome (Element name attrs class kids)
                  counter refs) as Helement.
    destruct (over_limit (Element name attrs class kids)); cbn [orb].
    + by rewrite Helement.
    + destruct Helement as (r & refs1 & ->).
      destruct r as [s|]; [|apply IH].
      destruct (truthy s); [|apply IH]. run.
      specialize (IH (next refs1) refs1). destruct (existsb over_limit rest).
      * by rewrite IH.
      * destruct IH as (blocks & refs2 & ->). eauto.
Qed.

Lemma walk_children_total (next : Registry -> Z) (children : list Node)
    (counter : Z) (refs : Registry) :
  existsb over_limit children = false ->
  exists blocks refs', walk_children next children counter refs
                       = Ok (blocks, refs').
Proof.
  intros Hlimit. pose proof (walk_children_outcome next children counter refs) as H.
  by rewrite Hlimit in H.
Qed.


(** ** The contents of the dictionary are trimmed *)

Lemma handle_footnote_definition_trimmed (element : Node) (counter : Z)
    (refs refs' : Registry) (r : option string) :
  trimmed refs ->
  handle_footnote_definition element counter refs = Ok (r, refs') ->
  trimmed refs'.
Proof.
  intros Hrefs (_ & _ & ->)%handle_footnote_definition_Ok.
  destruct (footnote_numeral element); [|done].
  destruct (find_class "div" "footnote-content" element); [|done].
  apply map_Forall_insert_2; [apply rstrip_strip | done].
Qed.

Lemma each_child_trimmed (f : Node -> M (option string)) (children : list Node) :
  Forall (fun c => forall refs r refs',
              trimmed refs -> f c refs = Ok (r, refs') -> trimmed refs')
         children ->
  forall refs rs refs',
    trimmed refs -> each_child f children refs = Ok (rs, refs') -> trimmed refs'.
Proof.
  induction 1 as [|child rest Hchild _ IH]; intros refs rs refs' Hrefs; simpl.
  - by intros [= _ <-].
  - destruct (name_truthy child); [|by apply IH].
    unfold bind. destruct (f child refs) as [[r refs1]|] eqn:E; [|done].
    destruct (each_child f rest refs1) as [[rs1 refs2]|] eqn:E1; [|done].
    run. intros [= _ <-]. eapply IH; [|exact E1]. by eapply Hchild.
Qed.

Lemma process_element_trimmed (element : Node) (counter : Z) :
  forall refs r refs',
    trimmed refs -> process_element element counter refs = Ok (r, refs') ->
    trimmed refs'.
Proof.
  induction element as [s|name attrs class children IH]
    using Node_children_ind; intros refs r refs' Hrefs.
  - cbn. by intros [= _ <-].
  - cbn [process_element]. branches; run; try by intros [= _ <-].
    + by apply handle_footnote_definition_trimmed.
    + destruct (each_child _ children refs) as [[rs refs1]|] eqn:E; [|done].
      intros [= _ <-].
      by eapply (each_child_trimmed (fun c => process_element c counter)).
Qed.

Lemma walk_children_trimmed (next : Registry -> Z) (children : list Node) :
  forall counter refs blocks refs',
    trimmed refs ->
    walk_children next children counter refs = Ok (blocks, refs') ->
    trimmed refs'.
Proof.
  induction children as [|element rest IH];
    intros counter refs blocks refs' Hrefs; simpl.
  - by intros [= _ <-].
  - destruct element as [s|name attrs class kids]; [by apply IH|].
    unfold bind.
    destruct (process_element _ counter refs) as [[r refs1]|] eqn:E; [|done].
    apply process_element_trimmed in E; [|done].
    destruct r as [s|]; [|by apply IH].
    destruct (truthy s); [|by apply IH]. run.
    destruct (walk_children next rest _ refs1) as [[lines refs2]|] eqn:E1;
      [|done].
    intros [= _ <-]. by eapply IH.
Qed.

(** ** The footnote block *)

Lemma elem_of_sorted_keys (refs : Registry) (n : N) :
  n ∈ sorted_keys refs <-> is_Some (refs !! n).
Proof.
  unfold sorted_keys. rewrite sorted_Permutation.
  rewrite list_elem_of_fmap. split.
  - intros ([k v] & -> & Hkv%elem_of_map_to_list). by exists v.
  - intros [v Hv]. exists (n, v). by rewrite elem_of_map_to_list.
Qed.

Lemma NoDup_sorted_keys (refs : Registry) : NoDup (sorted_keys refs).
Proof.
  unfold sorted_keys. rewrite sorted_Permutation.
  apply NoDup_fst_map_to_list.
Qed.

(** The keys come out in strictly ascending numeric order. *)
Lemma sorted_keys_ascending (refs : Registry) :
  StronglySorted N.lt (sorted_keys refs).
Proof.
  pose proof (NoDup_sorted_keys refs) as Hnd.
  assert (StronglySorted N.le (sorted_keys refs)) as Hle.
  { apply Sorted_StronglySorted; [intros x y z; apply N.le_trans|].
    apply Sorted_sorted. intros x y. apply N.le_ge_cases. }
  induction Hle as [|x l Hl IH Hx]; [constructor|].
  apply NoDup_cons in Hnd as [Hnotin Hnd].
  constructor; [by apply IH|].
  rewrite Forall_forall in Hx |- *. intros y Hy.
  specialize (Hx y Hy). assert (x <> y) by (intros ->; done). lia.
Qed.

Lemma length_footnote_entries (refs : Registry) :
  length (footnote_entries refs) = size refs.
Proof.
  unfold footnote_entries, sorted_keys.
  by rewrite length_map, sorted_Permutation, length_fmap, length_map_to_list.
Qed.

Lemma sorted_keys_nonempty (refs : Registry) :
  refs <> ∅ -> sorted_keys refs <> [].
Proof.
  intros Hne Hnil. apply Hne. apply map_empty. intros n.
  apply eq_None_not_Some. rewrite <- elem_of_sorted_keys, Hnil.
  apply not_elem_of_nil.
Qed.

Lemma footnote_lines_ok (refs : Registry) (keys : list N) :
  Forall (fun n => is_Some (refs !! n)) keys ->
  footnote_lines refs keys
  = Ok (map (fun n => footnote_line n (refs !!! n)) keys).
Proof.
  induction 1 as [|n keys [content Hn] _ IH]; simpl; [done|].
  unfold subscript. rewrite Hn, IH.
  by rewrite (lookup_total_correct _ _ _ Hn).
Qed.

(** The block after the loop never raises: every key read is a key of the
    dictionary. *)
Lemma footnote_block_ok (refs : Registry) :
  footnote_block refs
  = Ok (if bool_decide (refs = ∅) then []
        else footnote_separator
               :: footnote_entries refs).
Proof.
  unfold footnote_block, footnote_entries. destruct (bool_decide (refs = ∅)); [done|].
  rewrite footnote_lines_ok; [done|].
  apply Forall_forall. intros n. apply elem_of_sorted_keys.
Qed.

(** ** The shape of the assembled document *)

Lemma rstrip_footnote_lines (refs : Registry) (keys : list N) :
  keys <> [] ->
  rstrip (join NL2 (map (fun n => footnote_line n (refs !!! n)) keys)) <> "".
Proof.
  destruct keys as [|n keys]; [done|]. intros _.
  assert (exists rest,
             join NL2 (map (fun n => footnote_line n (refs !!! n)) (n :: keys))
             = String "[" rest) as [rest ->].
  { simpl. destruct (map _ keys); unfold footnote_line; simpl; eauto. }
  by rewrite rstrip_cons_nonspace.
Qed.

(** The trimmed document when there is a footnote block: what stands
    before the separator line, the line itself, three line breaks, and the
    right-trimmed lines. *)
Lemma strip_with_footnotes (body lines : list string) :
  lines <> [] -> rstrip (join NL2 lines) <> "" ->
  strip (join NL2 (body ++ footnote_separator :: lines))
  = match lstrip (join NL2 body) with
    | "" => ""
    | text => text +:+ NL2 +:+ NL
    end +:+ rule_gap +:+ rstrip (join NL2 lines).
Proof.
  intros Hlines Hnonblank. rewrite join_app_cons.
  destruct lines as [|l ls]; [done|].
  set (J := join NL2 (l :: ls)) in *.
  assert (footnote_separator +:+ NL2 +:+ J = NL +:+ rule_gap +:+ J) as ->
    by done.
  assert (rstrip (rule_gap +:+ J) = rule_gap +:+ rstrip J) as Htail
    by (by apply rstrip_app_r).
  assert (rstrip (rule_gap +:+ J) <> "") as Hne by (by rewrite Htail).
  unfold strip. destruct body as [|b body].
  - exact Htail.
  - assert (join NL2 ((b :: body) ++ [""]) = join NL2 (b :: body) +:+ NL2)
      as ->.
    { by apply join_snoc_nil. }
    set (B := join NL2 (b :: body)).
    rewrite sapp_assoc.
    destruct (lstrip B) as [|c text] eqn:E.
    + rewrite lstrip_app_blank by done. exact Htail.
    + rewrite lstrip_app_l by (by rewrite E). rewrite E.
      replace (String c text +:+ NL2 +:+ NL +:+ rule_gap +:+ J)
        with ((String c text +:+ NL2 +:+ NL) +:+ rule_gap +:+ J)
        by (by rewrite !sapp_assoc).
      rewrite rstrip_app_r by done. by rewrite Htail.
Qed.

Lemma registry_nonempty (refs : Registry) :
  bool_decide (refs = ∅) = false -> refs <> ∅.
Proof. apply bool_decide_eq_false. Defined.

(** The converter in one equation, from the result of the loop. *)
Lemma convert_with_eq (init : Z) (next : Registry -> Z) (root : Node)
    (title subtitle : option string) (blocks : list string) (refs : Registry) :
  walk_children next (children_of root) init ∅ = Ok (blocks, refs) ->
  convert_with init next root title subtitle
  = Ok (strip (join NL2
                 (header_lines title subtitle ++ blocks
                    ++ if bool_decide (refs = ∅) then []
                       else footnote_separator :: footnote_entries refs))).
Proof.
  intros Hwalk. unfold convert_with. by rewrite Hwalk, footnote_block_ok.
Qed.

Lemma convert_with_footnotes (root : Node) (title subtitle : option string)
    (blocks : list string) (refs : Registry) :
  walk_children recount (children_of root) 1 ∅ = Ok (blocks, refs) ->
  refs <> ∅ ->
  convert_html_to_markdown root title subtitle
  = Ok (match lstrip (join NL2 (header_lines title subtitle ++ blocks)) with
        | "" => ""
        | text => text +:+ NL2 +:+ NL
        end +:+ rule_gap +:+ rstrip (join NL2 (footnote_entries refs))).
Proof.
  intros Hwalk Hne. unfold convert_html_to_markdown.
  rewrite (convert_with_eq _ _ _ _ _ _ _ Hwalk).
  rewrite bool_decide_eq_false_2 by done.
  rewrite app_assoc. f_equal. apply strip_with_footnotes.
  - unfold footnote_entries. intros Hnil%map_eq_nil.
    by apply sorted_keys_nonempty in Hne.
  - apply rstrip_footnote_lines. by apply sorted_keys_nonempty.
Qed.

(** The lines end with the content of the greatest numeral: when that
    content is not empty the closing trim leaves them as they are. *)
Lemma rstrip_entries_fixed (refs : Registry) (n : N) :
  trimmed refs ->
  last (sorted_keys refs) = Some n -> refs !!! n <> "" ->
  rstrip (join NL2 (footnote_entries refs)) = join NL2 (footnote_entries refs).
Proof.
  intros Htrim [keys Hkeys]%last_Some Hcontent. unfold footnote_entries.
  rewrite Hkeys, map_app. cbn [map]. rewrite join_app_cons.
  assert (is_Some (refs !! n)) as [content Hn].
  { apply elem_of_sorted_keys. rewrite Hkeys. set_solver. }
  rewrite (lookup_total_correct _ _ _ Hn) in Hcontent |- *.
  pose proof (Htrim _ _ Hn) as Hfix. cbn beta in Hfix.
  set (P := join NL2 (map _ keys ++ [""])). unfold footnote_line.
  rewrite sapp_nil_r.
  replace (P +:+ "[^" +:+ str n +:+ "]: " +:+ content)
    with ((P +:+ "[^" +:+ str n +:+ "]: ") +:+ content)
    by (by rewrite !sapp_assoc).
  rewrite rstrip_app_r by (by rewrite Hfix). by rewrite Hfix.
Qed.

(** The loop appends no empty block, and the header has none. *)
Lemma walk_children_blocks (next : Registry -> Z) (children : list Node) :
  forall counter refs blocks refs',
    walk_children next children counter refs = Ok (blocks, refs') ->
    Forall (fun block => block <> "") blocks.
Proof.
  induction children as [|element rest IH]; intros counter refs blocks refs';
    simpl.
  - intros [= <- _]. constructor.
  - destruct element as [s|name attrs class kids]; [by apply IH|].
    unfold bind.
    destruct (process_element _ counter refs) as [[r refs1]|]; [|done].
    destruct r as [s|]; [|by apply IH].
    destruct (truthy s) eqn:Hs; [|by apply IH]. run.
    destruct (walk_children next rest _ refs1) as [[lines refs2]|] eqn:E;
      [|done].
    intros [= <- _]. constructor; [by destruct s | by eapply IH].
Qed.

Lemma header_lines_nonempty (title subtitle : option string) :
  Forall (fun block => block <> "") (header_lines title subtitle).
Proof.
  destruct title as [[|c t]|]; simpl; try constructor; try done.
  destruct subtitle as [[|d st]|]; simpl; repeat constructor; done.
Qed.

(** The conversion of a document returns a string when the loop reaches
    no digit run beyond the limit of [int], and raises otherwise. *)
Lemma convert_returns (root : Node) (title subtitle : option string) :
  existsb over_limit (children_of root) = false ->
  exists out, convert_html_to_markdown root title subtitle = Ok out.
Proof.
  intros Hlimit.
  destruct (walk_children_total recount (children_of root) 1 ∅ Hlimit)
    as (blocks & refs & Hwalk).
  eexists. unfold convert_html_to_markdown. by apply convert_with_eq.
Qed.


(** A conversion that returns went through the loop. *)
Lemma convert_with_inv (init : Z) (next : Registry -> Z) (root : Node)
    (title subtitle : option string) (out : string) :
  convert_with init next root title subtitle = Ok out ->
  exists blocks refs,
    walk_children next (children_of root) init ∅ = Ok (blocks, refs).
Proof.
  unfold convert_with.
  destruct (walk_children _ _ _ _) as [[blocks refs]|]; [eauto | done].
Qed.

(** * The properties of the specification *)

(** ** The footnote block (C1) *)

(** C1, in the form the code satisfies.  When the dictionary is not empty
    after the loop, the output ends with the footnote block: one line
    [[^n]: content] for each numeral of the dictionary and no other, in
    strictly ascending numeric order whatever the order of the
    definitions, the lines joined by a blank line and right-trimmed as a
    whole by the closing [strip].  The trim changes nothing when the
    content of the greatest numeral is not empty, and removes the blank
    that ends the last line otherwise. *)
Theorem C1_footnote_block_ascending (root : Node)
    (title subtitle : option string) (blocks : list string) (refs : Registry) :
  walk_children recount (children_of root) 1 ∅ = Ok (blocks, refs) ->
  refs <> ∅ ->
  StronglySorted N.lt (sorted_keys refs)
  /\ (forall n, n ∈ sorted_keys refs <-> is_Some (refs !! n))
  /\ length (footnote_entries refs) = size refs
  /\ footnote_entries refs
     = map (fun n => "[^" +:+ str n +:+ "]: " +:+ refs !!! n) (sorted_keys refs)
  /\ (exists pre,
        convert_html_to_markdown root title subtitle
        = Ok (pre +:+ rstrip (join NL2 (footnote_entries refs))))
  /\ (forall n, last (sorted_keys refs) = Some n -> refs !!! n <> "" ->
        rstrip (join NL2 (footnote_entries refs))
        = join NL2 (footnote_entries refs)).
Proof.
  intros Hwalk Hne.
  split; [apply sorted_keys_ascending|].
  split; [apply elem_of_sorted_keys|].
  split; [apply length_footnote_entries|].
  split; [done|].
  split.
  - rewrite (convert_with_footnotes _ _ _ _ _ Hwalk Hne).
    eexists. by rewrite <- sapp_assoc.
  - intros n. apply rstrip_entries_fixed.
    eapply walk_children_trimmed; [|exact Hwalk]. apply map_Forall_empty.
Qed.

(** The definitions met in the order 3, 10, 1, 2 come out as 1, 2, 3, 10. *)
Lemma C1_footnote_block_ascending_witness :
  StronglySorted N.lt (sorted_keys {[ 3 := "c"; 10 := "j"; 1 := "a"; 2 := "b" ]}%N)
  /\ exists pre,
       convert_html_to_markdown doc_notes_3_10_1_2 None None
       = Ok (pre +:+ "[^1]: a" +:+ NL2 +:+ "[^2]: b" +:+ NL2 +:+ "[^3]: c"
               +:+ NL2 +:+ "[^10]: j").
Proof.
  destruct (C1_footnote_block_ascending doc_notes_3_10_1_2 None None
              ["Body"] {[ 3 := "c"; 10 := "j"; 1 := "a"; 2 := "b" ]}%N)
    as (Hsorted & _ & _ & _ & Hout & _).
  - vm_compute. reflexivity.
  - apply registry_nonempty. vm_compute. reflexivity.
  - split; [exact Hsorted | exact Hout].
Defined.

(** C1 as the specification words it fails on a footnote with an empty
    content: the line of the block is [[^1]: ] and the output ends with
    [[^1]:]. *)
Lemma C1_counterexample :
  exists blocks refs,
    walk_children recount (children_of doc_empty_note) 1 ∅ = Ok (blocks, refs)
    /\ refs <> ∅
    /\ convert_html_to_markdown doc_empty_note None None
       = Ok ("---" +:+ NL +:+ NL2 +:+ "[^1]:")
    /\ ~ exists pre,
           convert_html_to_markdown doc_empty_note None None
           = Ok (pre +:+ join NL2 (footnote_entries refs)).
Proof.
  exists [], {[ 1%N := "" ]}.
  split; [vm_compute; reflexivity|].
  split; [apply registry_nonempty; vm_compute; reflexivity|].
  split; [vm_compute; reflexivity|].
  intros [pre Hpre].
  assert (convert_html_to_markdown doc_empty_note None None
          = Ok ("---" +:+ NL +:+ NL2 +:+ "[^1]:")) as Hout
    by (vm_compute; reflexivity).
  rewrite Hout in Hpre. injection Hpre as Hpre.
  apply (f_equal (endswith (join NL2 (footnote_entries {[ 1%N := "" ]}))))
    in Hpre.
  rewrite endswith_app in Hpre. vm_compute in Hpre. discriminate.
Qed.

(** ** The assembled string (C6) *)

(** C6, in the form the code satisfies.  The string that the conversion
    returns has no leading and no trailing whitespace.  No block is empty.
    Without footnotes the output
    is the trimmed join of the header and body blocks, one blank line
    between two blocks.  With footnotes the separator block is [---] with
    a line break on each side, so that the [---] line is followed by three
    line breaks (two blank lines) before the footnote lines, and stands
    first or after three line breaks. *)
Theorem C6_document_shape (root : Node) (title subtitle : option string)
    (out : string) :
  convert_html_to_markdown root title subtitle = Ok out ->
  exists blocks refs,
    walk_children recount (children_of root) 1 ∅ = Ok (blocks, refs)
    /\ (forall c, first_char out = Some c -> isspace c = false)
    /\ (forall c, last_char out = Some c -> isspace c = false)
    /\ Forall (fun block => block <> "") (header_lines title subtitle ++ blocks)
    /\ (refs = ∅ ->
        out = strip (join NL2 (header_lines title subtitle ++ blocks)))
    /\ (refs <> ∅ ->
        out = match lstrip (join NL2 (header_lines title subtitle ++ blocks))
              with
              | "" => ""
              | text => text +:+ NL2 +:+ NL
              end +:+ "---" +:+ NL +:+ NL2
                  +:+ rstrip (join NL2 (footnote_entries refs))).
Proof.
  intros Hout.
  destruct (convert_with_inv _ _ _ _ _ _ Hout) as (blocks & refs & Hwalk).
  exists blocks, refs. split; [exact Hwalk|].
  unfold convert_html_to_markdown in Hout.
  rewrite (convert_with_eq _ _ _ _ _ _ _ Hwalk) in Hout.
  injection Hout as <-.
  split; [apply strip_first|]. split; [apply strip_last|].
  split.
  { apply Forall_app. split; [apply header_lines_nonempty|].
    by eapply walk_children_blocks. }
  split.
  - intros ->. rewrite bool_decide_eq_true_2 by done.
    by rewrite app_nil_r.
  - intros Hne.
    pose proof (convert_with_footnotes root title subtitle _ _ Hwalk Hne) as H.
    unfold convert_html_to_markdown in H.
    rewrite (convert_with_eq _ _ _ _ _ _ _ Hwalk) in H.
    injection H as ->. done.
Qed.

Lemma C6_document_shape_witness :
  exists out,
    convert_html_to_markdown doc_one_note (Some "T") None = Ok out
    /\ (forall c, first_char out = Some c -> isspace c = false)
    /\ (forall c, last_char out = Some c -> isspace c = false)
    /\ out = "# T" +:+ NL2 +:+ "---" +:+ NL2 +:+ "x[^1]" +:+ NL2 +:+ NL
               +:+ "---" +:+ NL +:+ NL2 +:+ "[^1]: n".
Proof.
  set (out := "# T" +:+ NL2 +:+ "---" +:+ NL2 +:+ "x[^1]" +:+ NL2 +:+ NL
                +:+ "---" +:+ NL +:+ NL2 +:+ "[^1]: n").
  destruct (C6_document_shape doc_one_note (Some "T") None out)
    as (blocks & refs & Hwalk & Hfirst & Hlast & _).
  { vm_compute. reflexivity. }
  exists out. split; [vm_compute; reflexivity|].
  split; [exact Hfirst|]. split; [exact Hlast|]. reflexivity.
Defined.

(** C6 as the specification words it fails: around the [---] line of the
    footnote block there are two blank lines, not one. *)
Lemma C6_counterexample :
  exists blocks refs,
    walk_children recount (children_of doc_one_note) 1 ∅ = Ok (blocks, refs)
    /\ convert_html_to_markdown doc_one_note None None
       = Ok ("x[^1]" +:+ NL +:+ NL +:+ NL +:+ "---" +:+ NL +:+ NL +:+ NL
               +:+ "[^1]: n")
    /\ spec_document (header_lines None None) blocks refs
       = "x[^1]" +:+ NL +:+ NL +:+ "---" +:+ NL +:+ NL +:+ "[^1]: n"
    /\ convert_html_to_markdown doc_one_note None None
       <> Ok (spec_document (header_lines None None) blocks refs).
Proof.
  exists ["x[^1]"], {[ 1%N := "n" ]}.
  split; [vm_compute; reflexivity|].
  split; [vm_compute; reflexivity|].
  split; [vm_compute; reflexivity|].
  vm_compute. discriminate.
Qed.

(** ** The header (C10) *)

(** C10.  Without a title there is no header block: the block list starts
    with the body blocks, a subtitle changes nothing, and the output is
    the trimmed join of the body blocks and the footnote block alone.  A
    subtitle line in the header comes with a title line before it. *)
Theorem C10_no_header_without_title (root : Node) (subtitle : option string) :
  header_lines None subtitle = []
  /\ convert_html_to_markdown root None subtitle
     = convert_html_to_markdown root None None
  /\ (forall out,
        convert_html_to_markdown root None subtitle = Ok out ->
        exists blocks refs foot,
          walk_children recount (children_of root) 1 ∅ = Ok (blocks, refs)
          /\ footnote_block refs = Ok foot
          /\ out = strip (join NL2 (blocks ++ foot)))
  /\ (forall title st,
        "*" +:+ st +:+ "*" ∈ header_lines title (Some st) ->
        exists t, title = Some t /\ t <> ""
                  /\ header_lines title (Some st)
                     = ["# " +:+ t; "*" +:+ st +:+ "*"; "---"]).
Proof.
  split; [done|]. split; [done|]. split.
  - intros out Hout.
    destruct (convert_with_inv _ _ _ _ _ _ Hout) as (blocks & refs & Hwalk).
    exists blocks, refs. eexists. split; [exact Hwalk|].
    split; [apply footnote_block_ok|].
    unfold convert_html_to_markdown in Hout.
    rewrite (convert_with_eq _ _ _ _ _ _ _ Hwalk) in Hout.
    by injection Hout as <-.
  - intros [t|] st; simpl; [|by intros ?%elem_of_nil].
    destruct t as [|c t]; simpl; [by intros ?%elem_of_nil|].
    destruct st as [|d st]; simpl.
    + intros Hin. exfalso.
      apply elem_of_cons in Hin as [Hin|Hin]; [discriminate|].
      apply elem_of_cons in Hin as [Hin|Hin]; [discriminate|].
      by apply elem_of_nil in Hin.
    + intros _. exists (String c t). by repeat split.
Qed.

Lemma C10_no_header_without_title_witness :
  convert_html_to_markdown doc_one_note None (Some "Sub")
  = convert_html_to_markdown doc_one_note None None
  /\ exists t, Some "T" = Some t /\ t <> "".
Proof.
  destruct (C10_no_header_without_title doc_one_note (Some "Sub"))
    as (_ & Hsame & _ & Hsub).
  split; [exact Hsame|].
  destruct (Hsub (Some "T") "Sub") as (t & Ht & Hne & _).
  - vm_compute. apply list_elem_of_In. right. left. reflexivity.
  - exists t. split; [exact Ht | exact Hne].
Defined.

(** ** The counter (C7) *)

(** C7.  The counter is never read: the transducer and the inline
    extractor return the same for any two counter values, and the document
    is the same whatever the first counter value and whatever the
    recomputation after each block. *)
Theorem C7_counter_independent :
  (forall element refs1 refs2 c1 c2,
      get_text_content element refs1 c1 = get_text_content element refs2 c2)
  /\ (forall element c1 c2 refs,
        process_element element c1 refs = process_element element c2 refs)
  /\ (forall init1 next1 init2 next2 root title subtitle,
        convert_with init1 next1 root title subtitle
        = convert_with init2 next2 root title subtitle)
  /\ (forall init next root title subtitle,
        convert_with init next root title subtitle
        = convert_html_to_markdown root title subtitle).
Proof.
  split; [intros; apply get_text_content_args|].
  split; [intros; apply process_element_counter|].
  assert (forall init1 next1 init2 next2 root title subtitle,
             convert_with init1 next1 root title subtitle
             = convert_with init2 next2 root title subtitle) as Hsame.
  { intros. unfold convert_with.
    by rewrite (walk_children_counter next1 next2 _ init1 init2). }
  split; [exact Hsame|]. intros. apply Hsame.
Qed.

(** ** Totality of the transducer (C3) *)




(** ** The image source (C2) *)

Lemma resolve_src_spec (src : string) (parent_link : option Node) :
  resolve_src src parent_link
  = spec_resolved_source src
      ((fun link => node_attr link "href") <$> parent_link).
Proof.
  destruct parent_link as [link|]; [|done]. simpl.
  destruct (node_attr link "href") as [|c href]; simpl.
  - by rewrite andb_false_r.
  - by rewrite andb_true_r.
Qed.

(** C2.  For an image container with an image leaf, the transducer emits
    [![alt](url)] (and a caption line when there is a caption), where [url]
    follows the three branches: the target of the image link when that
    target holds the delivery host; else that target when the leaf source
    holds the interim-storage marker and the target is not empty; else the
    leaf source.  So a leaf on the interim storage under a link to the
    delivery host is emitted with the link target. *)
Theorem C2_image_source (attrs : gmap string string) (class : list string)
    (children : list Node) (img : Node) (counter : Z) (refs : Registry) :
  "captioned-image-container" ∈ class ->
  find "img" (Element "div" attrs class children) = Some img ->
  let element := Element "div" attrs class children in
  let target := (fun link => node_attr link "href")
                  <$> find_class "a" "image-link" element in
  let url := spec_resolved_source (node_attr img "src") target in
  (exists caption,
      process_element element counter refs
      = Ok (Some ("![" +:+ node_attr img "alt" +:+ "](" +:+ url +:+ ")"
                    +:+ caption), refs)
      /\ (caption = "" \/ exists line, caption = NL +:+ line))
  /\ (forall t, target = Some t ->
        contains "bucketeer" (node_attr img "src") = true ->
        contains "substackcdn.com" t = true ->
        url = t).
Proof.
  intros Hclass Himg element target url. split.
  - unfold element at 1.
    rewrite process_element_div, bool_decide_eq_true_2 by done.
    unfold handle_image. rewrite Himg, resolve_src_spec.
    fold element target url. run.
    destruct (find "figcaption" element) as [caption|].
    + destruct (find "a" caption) as [caption_link|];
        eexists; (split; [reflexivity|]); right; eexists; reflexivity.
    + exists "". split; [by rewrite sapp_nil_r | by left].
  - intros t Ht _ Hcdn. unfold url. rewrite Ht. simpl. by rewrite Hcdn.
Qed.

Lemma C2_image_source_witness :
  exists caption,
    process_element image_container 1 ∅
    = Ok (Some ("![" +:+ "" +:+ "]("
                  +:+ "https://substackcdn.com/image/fetch/pic.png" +:+ ")"
                  +:+ caption), ∅).
Proof.
  destruct (C2_image_source ∅ ["captioned-image-container"]
              (children_of image_container)
              (Element "img"
                 {[ "src" := "https://bucketeer-1234.s3.amazonaws.com/pic.png" ]}
                 [] [])
              1 ∅) as [(caption & Hout & _) _].
  - repeat constructor.
  - vm_compute. reflexivity.
  - exists caption. exact Hout.
Defined.

(** ** Footnote anchors in the inline extractor (C4) *)

Lemma re_search_first_match (lit s ds : string) :
  re_search lit s = Some ds -> first_match lit s ds.
Proof.
  intros (Hne & Hall & pre & post & Hs & Hpost & Hleft)%re_search_sound.
  by exists pre, post.
Qed.

Lemma re_search_has_match (lit s : string) :
  has_match lit s -> exists ds, re_search lit s = Some ds.
Proof. intros (pre & ds & post & -> & Hne & Hall). by apply re_search_complete. Qed.

Lemma re_search_none (lit s : string) :
  re_search lit s = None -> ~ has_match lit s.
Proof. intros Hnone [ds Hds]%re_search_has_match. congruence. Qed.

Lemma get_text_content_app (name : string) (attrs : gmap string string)
    (class : list string) (l1 l2 : list Node) (refs : Registry) (counter : Z) :
  get_text_content (Element name attrs class (l1 ++ l2)) refs counter
  = get_text_content (Element name attrs class l1) refs counter
      +:+ get_text_content (Element name attrs class l2) refs counter.
Proof. cbn [get_text_content]. by rewrite flat_map_app, join_nil_app. Qed.

(** C4.  A child link of class [footnote-anchor] whose target holds
    [#footnote-] followed by a digit adds [[^ds]] to the inline text, [ds]
    being the digit run that the pattern captures; when the target holds no
    such place the child adds nothing, and the text is that of the other
    children. *)
Theorem C4_footnote_anchor (name : string) (attrs : gmap string string)
    (class : list string) (before after : list Node)
    (a_attrs : gmap string string) (a_class : list string)
    (a_children : list Node) (refs : Registry) (counter : Z) :
  "footnote-anchor" ∈ a_class ->
  let a := Element "a" a_attrs a_class a_children in
  let href := get_attr a_attrs "href" in
  let render :=
    fun l => get_text_content (Element name attrs class l) refs counter in
  (has_match "#footnote-" href ->
   exists ds, first_match "#footnote-" href ds
     /\ render (before ++ a :: after)
        = render before +:+ "[^" +:+ ds +:+ "]" +:+ render after)
  /\ (~ has_match "#footnote-" href ->
      render (before ++ a :: after) = render before +:+ render after).
Proof.
  intros Hclass a href render.
  assert (render (before ++ a :: after)
          = render before
              +:+ match re_search "#footnote-" href with
                  | Some ds => "[^" +:+ ds +:+ "]"
                  | None => ""
                  end +:+ render after) as Hrender.
  { unfold render. rewrite get_text_content_app. f_equal.
    change (a :: after) with ([a] ++ after).
    rewrite get_text_content_app. f_equal.
    cbn [get_text_content flat_map]. unfold a at 1, inline_piece.
    rewrite !bool_decide_eq_true_2 by done. fold href.
    by destruct (re_search "#footnote-" href). }
  split.
  - intros [ds Hds]%re_search_has_match. exists ds.
    split; [by apply re_search_first_match|].
    by rewrite Hrender, Hds, !sapp_assoc.
  - intros Hno. rewrite Hrender.
    destruct (re_search "#footnote-" href) as [ds|] eqn:E; [|done].
    exfalso. apply Hno.
    apply re_search_sound in E as (? & ? & pre & post & ? & _).
    by exists pre, ds, post.
Qed.

Lemma C4_footnote_anchor_witness :
  (exists ds,
      get_text_content
        (tag "p" [Text "See"; anchor "https://x.test/p/post#footnote-12abc";
                  Text "."]) ∅ 1
      = "See" +:+ "[^" +:+ ds +:+ "]" +:+ ".")
  /\ get_text_content (tag "p" [Text "See"; anchor "#note-3"; Text "."]) ∅ 1
     = "See" +:+ ".".
Proof.
  split.
  - destruct (C4_footnote_anchor "p" ∅ [] [Text "See"] [Text "."]
                {[ "href" := "https://x.test/p/post#footnote-12abc" ]}
                ["footnote-anchor"] [Text "1"] ∅ 1) as [Hmatch _].
    { repeat constructor. }
    destruct Hmatch as (ds & _ & Hrender).
    { exists "https://x.test/p/post", "12", "abc". vm_compute.
      by repeat split. }
    exists ds. exact Hrender.
  - destruct (C4_footnote_anchor "p" ∅ [] [Text "See"] [Text "."]
                {[ "href" := "#note-3" ]}
                ["footnote-anchor"] [Text "1"] ∅ 1) as [_ Hdrop].
    { repeat constructor. }
    apply Hdrop. apply re_search_none. vm_compute. reflexivity.
Defined.

(** ** The footnote handler (C5) *)

(** An extractable numeral is the value of the digit run that follows
    [footnote-anchor-] in the target of the footnote-number link. *)
Lemma footnote_numeral_match (element : Node) (n : N) :
  footnote_numeral element = Some n ->
  exists link ds,
    find_class "a" "footnote-number" element = Some link
    /\ first_match "footnote-anchor-" (node_attr link "href") ds
    /\ int ds = Ok n.
Proof.
  unfold footnote_numeral, footnote_digits.
  destruct (find_class "a" "footnote-number" element) as [link|]; [|done].
  destruct (re_search _ _) as [ds|] eqn:Hsearch; [|done].
  destruct (int ds) as [m|] eqn:Hm; [|done].
  intros [= ->]. exists link, ds. split; [done|].
  split; [by apply re_search_first_match | done].
Qed.

(** A division with a numeral has a digit run within the limit. *)
Lemma footnote_numeral_within_limit (element : Node) (n : N) :
  footnote_numeral element = Some n -> exceeds_limit element = false.
Proof.
  unfold footnote_numeral, exceeds_limit, footnote_digits.
  destruct (find_class "a" "footnote-number" element) as [link|]; [|done].
  destruct (re_search _ _) as [ds|] eqn:Hsearch; [|done].
  destruct (int_max_str_digits <? String.length ds)%nat eqn:Hlen; [|done].
  by rewrite (int_over_search _ _ _ Hsearch Hlen).
Qed.




(** The other way in which the handler departs from the wording: on a
    digit run of 4301 digits it raises, and the call is neither a store
    nor a silent no-op. *)
Example handle_footnote_definition_over_limit :
  footnote_digits footnote_over_limit = Some long_numeral
  /\ handle_footnote_definition footnote_over_limit 1 ∅
     = Raise digit_limit_exceeded.
Proof. split; vm_compute; reflexivity. Qed.

(** ** The quarterly batcher (C9) *)

Section batch_facts.
Import Batch.
Variable fromisoformat : string -> result datetime.

(** The label of a date: its year and the quarter of its month. *)
Lemma get_quarter_label (date_string : string) (date : datetime) :
  fromisoformat (replace_char "Z" "+00:00" date_string) = Ok date ->
  get_quarter fromisoformat date_string
  = Ok (pretty (year date) +:+ "-Q"
          +:+ pretty ((month date - 1) / 3 + 1)%Z).
Proof. unfold get_quarter. by intros ->. Qed.

(** Months 1 to 3 are quarter 1, 4 to 6 quarter 2, 7 to 9 quarter 3 and
    10 to 12 quarter 4. *)
Lemma quarter_of_month (m : Z) :
  (1 <= m <= 12)%Z ->
  ((m - 1) / 3 + 1)%Z
  = (if bool_decide (m <= 3) then 1
     else if bool_decide (m <= 6) then 2
     else if bool_decide (m <= 9) then 3 else 4)%Z.
Proof.
  intros Hm.
  assert (m = 1 \/ m = 2 \/ m = 3 \/ m = 4 \/ m = 5 \/ m = 6 \/ m = 7
          \/ m = 8 \/ m = 9 \/ m = 10 \/ m = 11 \/ m = 12)%Z as Hcases
    by lia.
  repeat (destruct Hcases as [-> | Hcases]; [reflexivity|]).
  by subst.
Qed.

(** After the loop over the rows a quarter holds what it held, then its
    rows in the order of the table. *)
Lemma add_rows_groups (rows : list post) :
  forall m m', add_rows fromisoformat rows m = Ok m' ->
  forall q, default [] (m' !! q)
            = default [] (m !! q)
                ++ filter (fun row => in_quarter fromisoformat q row = true)
                          rows.
Proof.
  induction rows as [|row rows IH]; intros m m'; simpl.
  - intros [= <-] q. by rewrite filter_nil, app_nil_r.
  - destruct (get_quarter fromisoformat (post_date row)) as [quarter|]
      eqn:Hq; [|done].
    intros Hrest q. rewrite (IH _ _ Hrest q).
    destruct (decide (quarter = q)) as [->|Hne].
    + rewrite lookup_insert_eq. simpl.
      rewrite filter_cons_True.
      * by rewrite <- app_assoc.
      * unfold in_quarter. rewrite Hq. by apply bool_decide_eq_true_2.
    + rewrite lookup_insert_ne by done.
      rewrite filter_cons_False; [done|].
      unfold in_quarter. rewrite Hq.
      by rewrite bool_decide_eq_false_2.
Qed.

Lemma date_le_total : Total date_le.
Proof. intros a b. unfold date_le. apply String.le_total. Qed.

(** The posts of a quarter are the rows of that quarter, sorted by their
    date string in ascending order. *)
Lemma load_posts_by_quarter_groups (rows : list post)
    (posts_by_quarter : gmap string (list post)) (q : string) :
  load_posts_by_quarter fromisoformat rows = Ok posts_by_quarter ->
  let posts := default [] (posts_by_quarter !! q) in
  posts = sort_by_date
            (filter (fun row => in_quarter fromisoformat q row = true) rows)
  /\ Sorted date_le posts
  /\ posts ≡ₚ filter (fun row => in_quarter fromisoformat q row = true) rows.
Proof.
  unfold load_posts_by_quarter.
  destruct (add_rows fromisoformat rows ∅) as [m|] eqn:Hadd; [|done].
  intros [= <-]. cbn zeta.
  assert (default [] ((sort_by_date <$> m) !! q)
          = sort_by_date
              (filter (fun row => in_quarter fromisoformat q row = true)
                      rows)) as ->.
  { rewrite lookup_fmap.
    pose proof (add_rows_groups _ _ _ Hadd q) as Hq.
    rewrite lookup_empty in Hq. simpl in Hq. rewrite <- Hq.
    by destruct (m !! q). }
  split; [done|]. split.
  - apply Sorted_sorted, date_le_total.
  - apply sorted_Permutation.
Qed.

Lemma write_posts_cons (markdown_dir : string -> option string) (i : nat)
    (post_info : post) (posts : list post) :
  write_posts markdown_dir i (post_info :: posts)
  = match markdown_dir (post_id post_info) with
    | Some content =>
        (if bool_decide (1 < i) then separator else "")
          +:+ content +:+ write_posts markdown_dir (S i) posts
    | None => write_posts markdown_dir (S i) posts
    end.
Proof. reflexivity. Qed.

Lemma written_cons (markdown_dir : string -> option string)
    (post_info : post) (posts : list post) :
  written markdown_dir (post_info :: posts)
  = match markdown_dir (post_id post_info) with
    | Some content => content :: written markdown_dir posts
    | None => written markdown_dir posts
    end.
Proof. reflexivity. Qed.

(** From the second position on, the loop writes the separator and the
    content for each readable post. *)
Lemma write_posts_later (markdown_dir : string -> option string)
    (posts : list post) :
  forall i, 1 < i ->
  write_posts markdown_dir i posts
  = foldr (fun content acc => separator +:+ content +:+ acc) ""
          (written markdown_dir posts).
Proof.
  induction posts as [|post_info posts IH]; intros i Hi; [done|].
  rewrite write_posts_cons, written_cons.
  destruct (markdown_dir (post_id post_info)) as [content|].
  - rewrite bool_decide_eq_true_2 by done. by rewrite IH by lia.
  - apply IH. lia.
Qed.

Lemma join_foldr (sep x : string) (l : list string) :
  join sep (x :: l)
  = x +:+ foldr (fun content acc => sep +:+ content +:+ acc) "" l.
Proof.
  revert x. induction l as [|y l IH]; intros x.
  - simpl. by rewrite sapp_nil_r.
  - rewrite join_cons by done. by rewrite IH.
Qed.

(** When the first post of the quarter is readable, the body is the
    written posts with the separator between two consecutive ones. *)
Lemma write_posts_first_readable (markdown_dir : string -> option string)
    (post_info : post) (posts : list post) (content : string) :
  markdown_dir (post_id post_info) = Some content ->
  write_posts markdown_dir 1 (post_info :: posts)
  = spec_body markdown_dir (post_info :: posts).
Proof.
  intros Hfirst. unfold spec_body.
  rewrite write_posts_cons, written_cons, Hfirst.
  rewrite write_posts_later by lia. by rewrite join_foldr.
Qed.

(** When the first post is skipped and a later one is written, the body
    starts with a separator. *)
Lemma write_posts_first_skipped (markdown_dir : string -> option string)
    (post_info : post) (posts : list post) :
  markdown_dir (post_id post_info) = None ->
  written markdown_dir posts <> [] ->
  write_posts markdown_dir 1 (post_info :: posts)
  = separator +:+ spec_body markdown_dir (post_info :: posts).
Proof.
  intros Hfirst Hsome. unfold spec_body.
  rewrite write_posts_cons, written_cons, Hfirst.
  rewrite write_posts_later by lia.
  destruct (written markdown_dir posts) as [|content rest]; [done|].
  by rewrite join_foldr.
Qed.
End batch_facts.

(** C9, on the input where the code departs from it.  Two posts of the
    first quarter of 2025, the Markdown file of the earlier one missing:
    the posts are grouped by quarter and sorted by date, but the file of
    the quarter carries a separator before its only post, where the
    specification has the separator between consecutive posts only. *)
Theorem C9_separator_before_only_post :
  Batch.load_posts_by_quarter Batch.iso_year_month
    [Batch.post_feb; Batch.post_apr; Batch.post_jan]
  = Ok {[ "2025-Q1" := [Batch.post_jan; Batch.post_feb];
          "2025-Q2" := [Batch.post_apr] ]}
  /\ Batch.main Batch.iso_year_month
       [Batch.post_feb; Batch.post_apr; Batch.post_jan]
       Batch.dir_without_first
     = Ok [("2025-Q1.md",
            Batch.quarter_header "2025-Q1" [Batch.post_jan; Batch.post_feb]
              +:+ Batch.separator +:+ "Second post");
           ("2025-Q2.md",
            Batch.quarter_header "2025-Q2" [Batch.post_apr] +:+ "Third post")]
  /\ Batch.spec_body Batch.dir_without_first [Batch.post_jan; Batch.post_feb]
     = "Second post"
  /\ Batch.write_posts Batch.dir_without_first 1
       [Batch.post_jan; Batch.post_feb]
     <> Batch.spec_body Batch.dir_without_first
          [Batch.post_jan; Batch.post_feb].
Proof.
  split; [vm_compute; reflexivity|].
  split; [vm_compute; reflexivity|].
  split; [vm_compute; reflexivity|].
  vm_compute. discriminate.
Qed.

(** ** The scenarios of the specification *)

(** A paragraph with a strong element, no title. *)
Example scenario_A :
  convert_html_to_markdown
    (tag "doc" [tag "p" [Text "Hello "; tag "strong" [Text "world"]]])
    None None
  = Ok "Hello **world**".
Proof. vm_compute. reflexivity. Qed.

(** A second-level heading. *)
Example scenario_B :
  convert_html_to_markdown (tag "doc" [tag "h2" [Text "Section"]]) None None
  = Ok "## Section".
Proof. vm_compute. reflexivity. Qed.

(** A reference to footnote 1 and its definition. *)
Example scenario_C :
  convert_html_to_markdown
    (tag "doc" [tag "p" [Text "Body"; anchor "#footnote-1"];
                footnote_div "#footnote-anchor-1" [tag "p" [Text "Note text"]]])
    None None
  = Ok ("Body[^1]" +:+ NL2 +:+ NL +:+ "---" +:+ NL +:+ NL2
          +:+ "[^1]: Note text").
Proof. vm_compute. reflexivity. Qed.

(** An empty document without title. *)
Example scenario_E : convert_html_to_markdown (tag "doc" []) None None = Ok "".
Proof. vm_compute. reflexivity. Qed.

(** An unknown tag among siblings is dropped and leaves them as they are. *)
Example scenario_drop :
  convert_html_to_markdown
    (tag "doc" [tag "p" [Text "one"]; tag "table" [Text "cell"];
                tag "p" [Text "two"]])
    None None
  = Ok ("one" +:+ NL2 +:+ "two").
Proof. vm_compute. reflexivity. Qed.

(** With the three files present, the quarterly files hold the posts of
    the quarter in date order, the separator between two of them. *)
Example batch_complete :
  Batch.main Batch.iso_year_month
    [Batch.post_feb; Batch.post_apr; Batch.post_jan] Batch.dir_complete
  = Ok [("2025-Q1.md",
         Batch.quarter_header "2025-Q1" [Batch.post_jan; Batch.post_feb]
           +:+ "First post" +:+ Batch.separator +:+ "Second post");
        ("2025-Q2.md",
         Batch.quarter_header "2025-Q2" [Batch.post_apr] +:+ "Third post")].
Proof. vm_compute. reflexivity. Qed.

(** * Further properties of the code *)

(** ** The inline extractor *)

Lemma inline_piece_plain (rec : Node -> string) (child : Node) :
  plain_text child = true ->
  (forall name attrs class children,
      child = Element name attrs class children ->
      rec child = get_text child) ->
  inline_piece rec child = [get_text child].
Proof.
  destruct child as [s|name attrs class children]; [done|].
  intros [Hname _]%andb_true_iff Hrec.
  apply negb_true_iff, bool_decide_eq_false in Hname.
  unfold inline_piece.
  rewrite !bool_decide_eq_false_2 by (intros ->; apply Hname; set_solver).
  by rewrite (Hrec _ _ _ _ eq_refl).
Qed.

(** Where no link, emphasis, strong or code element occurs below a tag,
    the inline extractor returns the text of the tag as it is: wrapping
    elements of other kinds lose nothing and add nothing. *)
Theorem get_text_content_plain (name : string) (attrs : gmap string string)
    (class : list string) (children : list Node) (refs : Registry)
    (counter : Z) :
  forallb plain_text children = true ->
  get_text_content (Element name attrs class children) refs counter
  = get_text (Element name attrs class children).
Proof.
  assert (forall n,
             match n with
             | Text _ => True
             | Element _ _ _ cs =>
                 forallb plain_text cs = true ->
                 get_text_content n refs counter = get_text n
             end) as Hall.
  { induction n as [s|nm at' cl cs IH] using Node_children_ind; [done|].
    intros Hplain. cbn [get_text_content get_text]. f_equal.
    induction IH as [|child rest Hchild _ IHrest]; [done|].
    cbn [forallb] in Hplain. apply andb_true_iff in Hplain as [Hc Hrest].
    cbn [flat_map map]. rewrite IHrest by done.
    rewrite inline_piece_plain; [done | done |].
    intros nm' at'' cl' cs' ->. apply Hchild.
    by apply andb_true_iff in Hc as [_ ?]. }
  exact (Hall (Element name attrs class children)).
Qed.

Lemma get_text_content_plain_witness :
  get_text_content
    (tag "p" [Text " a "; tag "span" [Text "b"; tag "u" [Text " c"]]]) ∅ 1
  = " a b c".
Proof.
  apply (get_text_content_plain "p" ∅ []
           [Text " a "; tag "span" [Text "b"; tag "u" [Text " c"]]] ∅ 1).
  vm_compute. reflexivity.
Defined.

(** ** What reaches the dictionary *)

Lemma each_child_unchanged (f : Node -> M (option string))
    (children : list Node) :
  Forall (fun c => name_truthy c = true ->
                   forall refs r refs', f c refs = Ok (r, refs') -> refs' = refs)
         children ->
  forall refs rs refs', each_child f children refs = Ok (rs, refs') ->
                        refs' = refs.
Proof.
  induction 1 as [|child rest Hchild _ IH]; intros refs rs refs'; simpl.
  - by intros [= _ <-].
  - destruct (name_truthy child); [|apply IH].
    unfold bind. destruct (f child refs) as [[r refs1]|] eqn:E; [|done].
    apply Hchild in E as ->; [|done].
    destruct (each_child f rest refs) as [[rs1 refs2]|] eqn:E1; [|done].
    run. intros [= _ <-]. by eapply IH.
Qed.

Lemma process_element_unchanged (element : Node) (counter : Z) :
  reaches_footnote element = false ->
  forall refs r refs',
    process_element element counter refs = Ok (r, refs') -> refs' = refs.
Proof.
  induction element as [s|name attrs class children IH]
    using Node_children_ind; intros Hreach refs r refs'.
  - cbn. by intros [= _ <-].
  - cbn [process_element reaches_footnote] in *.
    branches; run; try by intros [= _ <-].
    + simpl in Hreach. discriminate.
    + simpl in Hreach.
      destruct (each_child _ children refs) as [[rs refs1]|] eqn:E; [|done].
      intros [= _ <-].
      eapply (each_child_unchanged (fun c => process_element c counter));
        [|exact E].
      clear E. induction IH as [|child rest Hchild _ IHrest]; constructor.
      * intros Hname. apply Hchild.
        cbn [existsb] in Hreach. rewrite Hname in Hreach.
        by apply orb_false_iff in Hreach as [? _].
      * apply IHrest. cbn [existsb] in Hreach.
        by apply orb_false_iff in Hreach as [_ ?].
Qed.

(** Where the traversal reaches no footnote division it reaches none
    with a digit run beyond the limit. *)
Lemma over_limit_reaches (element : Node) :
  reaches_footnote element = false -> over_limit element = false.
Proof.
  induction element as [s|name attrs class children IH]
    using Node_children_ind; [done|].
  cbn [reaches_footnote over_limit].
  destruct (bool_decide (name = "div")); [|done].
  destruct (bool_decide ("captioned-image-container" ∈ class)); [done|].
  destruct (bool_decide ("footnote" ∈ class)); [done|].
  cbn [negb andb orb].
  induction IH as [|child rest Hchild _ IHrest]; [done|].
  cbn [existsb]. intros [Hc Hrest]%orb_false_iff.
  rewrite IHrest by done. destruct (name_truthy child); [|done].
  cbn [andb] in *. by rewrite Hchild.
Qed.

Lemma over_limit_reaches_all (children : list Node) :
  forallb (fun c => negb (reaches_footnote c)) children = true ->
  existsb over_limit children = false.
Proof.
  induction children as [|child rest IH]; [done|]. cbn [forallb existsb].
  intros [Hc Hrest]%andb_true_iff. apply negb_true_iff in Hc.
  by rewrite (over_limit_reaches _ Hc), IH.
Qed.

(** Only footnote divisions that are reached through plain divisions
    change the dictionary: a heading, a paragraph, a blockquote or an image
    container leaves it as it was whatever it holds, and a document where
    the traversal reaches no footnote division is converted without a
    footnote block. *)
Theorem registry_untouched_without_footnotes :
  (forall element counter refs,
      reaches_footnote element = false ->
      exists r, process_element element counter refs = Ok (r, refs))
  /\ (forall root title subtitle,
        forallb (fun c => negb (reaches_footnote c)) (children_of root) = true ->
        exists blocks,
          walk_children recount (children_of root) 1 ∅ = Ok (blocks, ∅)
          /\ convert_html_to_markdown root title subtitle
             = Ok (strip (join NL2 (header_lines title subtitle ++ blocks)))).
Proof.
  split.
  - intros element counter refs Hreach.
    destruct (process_element_total element counter refs
                (over_limit_reaches _ Hreach)) as (r & refs' & E).
    exists r. by rewrite E, (process_element_unchanged _ _ Hreach _ _ _ E).
  - intros root title subtitle Hnone.
    assert (forall children counter refs blocks refs',
               forallb (fun c => negb (reaches_footnote c)) children = true ->
               walk_children recount children counter refs = Ok (blocks, refs') ->
               refs' = refs) as Hwalk.
    { induction children as [|element rest IH];
        intros counter refs blocks refs' Hall; simpl.
      - by intros [= _ <-].
      - cbn [forallb] in Hall. apply andb_true_iff in Hall as [He Hrest].
        apply negb_true_iff in He.
        destruct element as [s|name attrs class kids]; [by apply IH|].
        unfold bind.
        destruct (process_element _ counter refs) as [[r refs1]|] eqn:E;
          [|done].
        apply (process_element_unchanged _ _ He) in E as ->.
        destruct r as [s|]; [|by apply IH].
        destruct (truthy s); [|by apply IH]. run.
        destruct (walk_children recount rest _ refs) as [[lines refs2]|] eqn:E1;
          [|done].
        intros [= _ <-]. by eapply IH. }
    destruct (walk_children_total recount (children_of root) 1 ∅
                (over_limit_reaches_all _ Hnone)) as (blocks & refs & E).
    pose proof (Hwalk _ _ _ _ _ Hnone E) as ->.
    exists blocks. split; [done|].
    unfold convert_html_to_markdown.
    rewrite (convert_with_eq _ _ _ _ _ _ _ E).
    by rewrite bool_decide_eq_true_2, app_nil_r.
Qed.

Lemma registry_untouched_without_footnotes_witness :
  (exists r,
      process_element
        (tag "blockquote" [footnote_div "#footnote-anchor-4" [Text "lost"]])
        1 ∅ = Ok (r, ∅))
  /\ exists blocks,
       convert_html_to_markdown
         (tag "doc" [tag "p" [Text "x"; footnote_div "#footnote-anchor-4" []]])
         None None
       = Ok (strip (join NL2 (header_lines None None ++ blocks))).
Proof.
  destruct registry_untouched_without_footnotes as [Helement Hdoc].
  split.
  - apply Helement. vm_compute. reflexivity.
  - destruct (Hdoc (tag "doc" [tag "p" [Text "x";
                                        footnote_div "#footnote-anchor-4" []]])
                None None) as (blocks & _ & Hout).
    + vm_compute. reflexivity.
    + exists blocks. exact Hout.
Defined.

(** ** Invariants of the dictionary *)

Section registry_invariant.
Variable P : Registry -> Prop.
Hypothesis P_store : forall refs n s, P refs -> P (<[n := strip s]> refs).

Lemma handle_footnote_definition_inv (element : Node) (counter : Z)
    (refs refs' : Registry) (r : option string) :
  P refs -> handle_footnote_definition element counter refs = Ok (r, refs') ->
  P refs'.
Proof.
  intros Hrefs (_ & _ & ->)%handle_footnote_definition_Ok.
  destruct (footnote_numeral element); [|done].
  destruct (find_class "div" "footnote-content" element); [|done].
  by apply P_store.
Qed.

Lemma each_child_inv (f : Node -> M (option string)) (children : list Node) :
  Forall (fun c => forall refs r refs',
              P refs -> f c refs = Ok (r, refs') -> P refs') children ->
  forall refs rs refs',
    P refs -> each_child f children refs = Ok (rs, refs') -> P refs'.
Proof.
  induction 1 as [|child rest Hchild _ IH]; intros refs rs refs' Hrefs; simpl.
  - by intros [= _ <-].
  - destruct (name_truthy child); [|by apply IH].
    unfold bind. destruct (f child refs) as [[r refs1]|] eqn:E; [|done].
    destruct (each_child f rest refs1) as [[rs1 refs2]|] eqn:E1; [|done].
    run. intros [= _ <-]. eapply IH; [|exact E1]. by eapply Hchild.
Qed.

Lemma process_element_inv (element : Node) (counter : Z) :
  forall refs r refs',
    P refs -> process_element element counter refs = Ok (r, refs') -> P refs'.
Proof.
  induction element as [s|name attrs class children IH]
    using Node_children_ind; intros refs r refs' Hrefs.
  - cbn. by intros [= _ <-].
  - cbn [process_element]. branches; run; try by intros [= _ <-].
    + by apply handle_footnote_definition_inv.
    + destruct (each_child _ children refs) as [[rs refs1]|] eqn:E; [|done].
      intros [= _ <-].
      by eapply (each_child_inv (fun c => process_element c counter)).
Qed.

Lemma walk_children_inv (next : Registry -> Z) (children : list Node) :
  forall counter refs blocks refs',
    P refs -> walk_children next children counter refs = Ok (blocks, refs') ->
    P refs'.
Proof.
  induction children as [|element rest IH];
    intros counter refs blocks refs' Hrefs; simpl.
  - by intros [= _ <-].
  - destruct element as [s|name attrs class kids]; [by apply IH|].
    unfold bind.
    destruct (process_element _ counter refs) as [[r refs1]|] eqn:E; [|done].
    apply process_element_inv in E; [|done].
    destruct r as [s|]; [|by apply IH].
    destruct (truthy s); [|by apply IH]. run.
    destruct (walk_children next rest _ refs1) as [[lines refs2]|] eqn:E1;
      [|done].
    intros [= _ <-]. by eapply IH.
Qed.
End registry_invariant.

Lemma strip_idem (s : string) : strip (strip s) = strip s.
Proof.
  unfold strip. destruct (rstrip (lstrip s)) as [|c r] eqn:E; [done|].
  assert (isspace c = false) as Hc.
  { apply (strip_first s). unfold strip. by rewrite E. }
  rewrite <- E at 2. cbn [lstrip]. rewrite Hc, <- E. apply rstrip_idem.
Qed.

(** The conversion loop never removes a numeral from the dictionary, and
    every content it has stored is trimmed on both sides: starting from
    trimmed contents (the empty dictionary of a conversion), all contents
    are fixed by [strip] afterwards. *)
Theorem registry_grows_trimmed (next : Registry -> Z) (children : list Node)
    (counter : Z) (refs refs' : Registry) (blocks : list string) :
  walk_children next children counter refs = Ok (blocks, refs') ->
  (forall n, is_Some (refs !! n) -> is_Some (refs' !! n))
  /\ (map_Forall (fun _ content => strip content = content) refs ->
      map_Forall (fun _ content => strip content = content) refs').
Proof.
  intros Hwalk. split.
  - intros n Hn. revert Hwalk.
    apply (walk_children_inv (fun r => is_Some (r !! n))); [|done].
    intros r m s Hr. destruct (decide (m = n)) as [->|Hne].
    + rewrite lookup_insert_eq. eauto.
    + by rewrite lookup_insert_ne.
  - intros Hrefs. revert Hwalk.
    apply (walk_children_inv
             (map_Forall (fun _ content => strip content = content)));
      [|done].
    intros r m s Hr. apply map_Forall_insert_2; [apply strip_idem | done].
Qed.

Lemma registry_grows_trimmed_witness :
  exists refs',
    walk_children recount
      [footnote_div "#footnote-anchor-2" [Text "  two  "];
       footnote_div "#footnote-anchor-9" [Text "nine "]] 1 {[ 5%N := "five" ]}
    = Ok ([], refs')
    /\ is_Some (refs' !! 5%N)
    /\ map_Forall (fun _ content => strip content = content) refs'.
Proof.
  eexists. split; [vm_compute; reflexivity|].
  edestruct (registry_grows_trimmed recount
               [footnote_div "#footnote-anchor-2" [Text "  two  "];
                footnote_div "#footnote-anchor-9" [Text "nine "]]
               1 {[ 5%N := "five" ]}) as [Hgrow Htrim].
  { vm_compute. reflexivity. }
  split.
  - apply Hgrow. by eexists.
  - apply Htrim. by apply map_Forall_singleton.
Defined.

(** ** The blocks do not depend on the dictionary *)

Lemma each_child_output (f : Node -> M (option string)) (children : list Node) :
  Forall (fun c => forall refs1 refs2 r1 r2 refs1' refs2',
              f c refs1 = Ok (r1, refs1') -> f c refs2 = Ok (r2, refs2') ->
              r1 = r2) children ->
  forall refs1 refs2 rs1 rs2 refs1' refs2',
    each_child f children refs1 = Ok (rs1, refs1') ->
    each_child f children refs2 = Ok (rs2, refs2') -> rs1 = rs2.
Proof.
  induction 1 as [|child rest Hchild _ IH];
    intros refs1 refs2 rs1 rs2 refs1' refs2'; simpl.
  - by intros [= <- _] [= <- _].
  - destruct (name_truthy child); [|apply IH].
    unfold bind.
    destruct (f child refs1) as [[r1 m1]|] eqn:E1; [|done].
    destruct (f child refs2) as [[r2 m2]|] eqn:E2; [|done].
    rewrite (Hchild _ _ _ _ _ _ E1 E2).
    destruct (each_child f rest m1) as [[t1 k1]|] eqn:F1; [|done].
    destruct (each_child f rest m2) as [[t2 k2]|] eqn:F2; [|done].
    rewrite (IH _ _ _ _ _ _ F1 F2). run. by intros [= <- _] [= <- _].
Qed.

Lemma process_element_output (element : Node) (counter : Z) :
  forall refs1 refs2 r1 r2 refs1' refs2',
    process_element element counter refs1 = Ok (r1, refs1') ->
    process_element element counter refs2 = Ok (r2, refs2') -> r1 = r2.
Proof.
  induction element as [s|name attrs class children IH]
    using Node_children_ind; intros refs1 refs2 r1 r2 refs1' refs2'.
  - cbn. by intros [= <- _] [= <- _].
  - cbn [process_element]. branches; run;
      rewrite ?(get_text_content_args _ refs1 refs2 counter counter);
      try by intros [= <- _] [= <- _].
    + intros [= <- _] [= <- _]. do 2 f_equal. apply map_ext. intros child.
      by rewrite (get_text_content_args _ refs1 refs2 counter counter).
    + by intros (_ & -> & _)%handle_footnote_definition_Ok
                (_ & -> & _)%handle_footnote_definition_Ok.
    + destruct (each_child _ children refs1) as [[rs1 m1]|] eqn:E1; [|done].
      destruct (each_child _ children refs2) as [[rs2 m2]|] eqn:E2; [|done].
      rewrite (each_child_output (fun c => process_element c counter)
                 _ IH _ _ _ _ _ _ E1 E2).
      by intros [= <- _] [= <- _].
Qed.

(** What the loop appends to the document does not depend on the
    dictionary it starts from, nor on the counter: the body of a document
    is the same whatever footnotes are registered. *)
Theorem blocks_independent_of_registry (next1 next2 : Registry -> Z)
    (children : list Node) (c1 c2 : Z) (refs1 refs2 refs1' refs2' : Registry)
    (blocks1 blocks2 : list string) :
  walk_children next1 children c1 refs1 = Ok (blocks1, refs1') ->
  walk_children next2 children c2 refs2 = Ok (blocks2, refs2') ->
  blocks1 = blocks2.
Proof.
  rewrite (walk_children_counter next1 next2 children c1 c2).
  revert c2 refs1 refs2 refs1' refs2' blocks1 blocks2.
  induction children as [|element rest IH];
    intros c refs1 refs2 refs1' refs2' blocks1 blocks2; simpl.
  - by intros [= <- _] [= <- _].
  - destruct element as [s|name attrs class kids]; [apply IH|].
    unfold bind.
    destruct (process_element _ c refs1) as [[r1 m1]|] eqn:E1; [|done].
    destruct (process_element _ c refs2) as [[r2 m2]|] eqn:E2; [|done].
    rewrite (process_element_output _ _ _ _ _ _ _ _ E1 E2).
    destruct r2 as [s|]; [|apply IH].
    destruct (truthy s); [|apply IH]. run.
    rewrite (walk_children_counter next2 next2 rest (next2 m1) c).
    rewrite (walk_children_counter next2 next2 rest (next2 m2) c).
    destruct (walk_children next2 rest c m1) as [[l1 k1]|] eqn:F1; [|done].
    destruct (walk_children next2 rest c m2) as [[l2 k2]|] eqn:F2; [|done].
    rewrite (IH _ _ _ _ _ _ _ F1 F2). by intros [= <- _] [= <- _].
Qed.

Lemma blocks_independent_of_registry_witness :
  exists refs1' refs2',
    walk_children recount [tag "p" [Text "x"; anchor "#footnote-1"]] 1 ∅
    = Ok (["x[^1]"], refs1')
    /\ walk_children recount [tag "p" [Text "x"; anchor "#footnote-1"]] 7
         {[ 1%N := "one" ]}
       = Ok (["x[^1]"], refs2').
Proof.
  assert (walk_children recount [tag "p" [Text "x"; anchor "#footnote-1"]] 1 ∅
          = Ok (["x[^1]"], ∅)) as H1 by (vm_compute; reflexivity).
  destruct (walk_children_total recount
              [tag "p" [Text "x"; anchor "#footnote-1"]] 7 {[ 1%N := "one" ]}
              eq_refl)
    as (blocks2 & refs2' & H2).
  exists ∅, refs2'. split; [exact H1|].
  rewrite H2. do 2 f_equal.
  symmetry. exact (blocks_independent_of_registry _ _ _ _ _ _ _ _ _ _ _ H1 H2).
Defined.

(** ** The loop over the top-level children *)

(** The loop over a concatenation is the loop over the first part followed
    by the loop over the second part, from the dictionary the first part
    left. *)
Lemma walk_children_app (next : Registry -> Z) (l1 l2 : list Node) :
  forall counter refs,
    walk_children next (l1 ++ l2) counter refs
    = match walk_children next l1 counter refs with
      | Ok (blocks1, refs1) =>
          match walk_children next l2 counter refs1 with
          | Ok (blocks2, refs2) => Ok (blocks1 ++ blocks2, refs2)
          | Raise e => Raise e
          end
      | Raise e => Raise e
      end.
Proof.
  induction l1 as [|element rest IH]; intros counter refs.
  - simpl. run. by destruct (walk_children next l2 counter refs) as [[? ?]|].
  - rewrite <- app_comm_cons. cbn [walk_children].
    destruct element as [s|name attrs class kids]; [apply IH|].
    unfold bind.
    destruct (process_element _ counter refs) as [[r refs1]|]; [|done].
    destruct r as [s|]; [|apply IH].
    destruct (truthy s); [|apply IH]. run.
    rewrite IH.
    destruct (walk_children next rest (next refs1) refs1) as [[b1 m1]|];
      [|done].
    rewrite (walk_children_counter next next l2 (next refs1) counter).
    by destruct (walk_children next l2 counter m1) as [[b2 m2]|].
Qed.

Lemma walk_children_passed_over (next : Registry -> Z) (element : Node)
    (rest : list Node) (counter : Z) (refs : Registry) :
  passed_over element ->
  walk_children next (element :: rest) counter refs
  = walk_children next rest counter refs.
Proof.
  destruct element as [s|name attrs class kids]; [done|].
  intros Hname. cbn [walk_children process_element]. unfold passed_over in Hname.
  rewrite !bool_decide_eq_false_2 by (intros ->; apply Hname; set_solver).
  done.
Qed.

(** A text node at the top level, and a top-level tag that is no heading,
    paragraph, blockquote or division, can be taken out of the document
    without any change to the output: they add nothing and the blocks
    around them are joined as if they were not there. *)
Theorem passed_over_is_dropped (name : string) (attrs : gmap string string)
    (class : list string) (before after : list Node) (element : Node)
    (title subtitle : option string) :
  passed_over element ->
  convert_html_to_markdown
    (Element name attrs class (before ++ element :: after)) title subtitle
  = convert_html_to_markdown
      (Element name attrs class (before ++ after)) title subtitle.
Proof.
  intros Hpassed. unfold convert_html_to_markdown, convert_with.
  cbn [children_of]. rewrite !walk_children_app.
  destruct (walk_children recount before 1 ∅) as [[b1 refs1]|]; [|done].
  by rewrite walk_children_passed_over.
Qed.

Lemma passed_over_is_dropped_witness :
  convert_html_to_markdown
    (tag "doc" [tag "p" [Text "one"]; Text "loose text";
                tag "p" [Text "two"]]) (Some "T") None
  = convert_html_to_markdown
      (tag "doc" [tag "p" [Text "one"]; tag "p" [Text "two"]]) (Some "T") None.
Proof.
  apply (passed_over_is_dropped "doc" ∅ [] [tag "p" [Text "one"]]
           [tag "p" [Text "two"]] (Text "loose text")).
  exact I.
Defined.

(** ** Plain divisions *)

Lemma join_app_nonempty (sep : string) (a l : list string) :
  l <> [] -> join sep (a ++ l) = join sep (a ++ [""]) +:+ join sep l.
Proof.
  intros Hl. induction a as [|y a IH]; [done|].
  rewrite <- !app_comm_cons.
  rewrite !join_cons by (by destruct a, l).
  by rewrite IH, !sapp_assoc.
Qed.

Lemma join_app_both (sep : string) (a c : list string) :
  a <> [] -> c <> [] ->
  join sep (a ++ c) = join sep a +:+ sep +:+ join sep c.
Proof.
  intros Ha Hc. rewrite join_app_nonempty, join_snoc_nil by done.
  by rewrite sapp_assoc.
Qed.

(** Joining a list where one element is itself a join is joining the
    flattened list. *)
Lemma join_flatten (sep : string) (a bs c : list string) :
  bs <> [] ->
  join sep (a ++ join sep bs :: c) = join sep (a ++ bs ++ c).
Proof.
  intros Hbs.
  rewrite (join_app_nonempty sep a (join sep bs :: c)) by done.
  rewrite (join_app_nonempty sep a (bs ++ c)) by (by destruct bs).
  f_equal. destruct c as [|x c].
  - by rewrite app_nil_r.
  - rewrite join_cons by done. by rewrite join_app_both.
Qed.

Lemma process_element_nameless (attrs : gmap string string)
    (class : list string) (kids : list Node) (counter : Z) (refs : Registry) :
  process_element (Element "" attrs class kids) counter refs = Ok (None, refs).
Proof. reflexivity. Qed.

(** The loop of the plain [div] branch and the loop over the top-level
    children collect the same blocks and leave the same dictionary. *)
Lemma each_child_walk (next : Registry -> Z) (children : list Node)
    (counter : Z) :
  forall refs,
    each_child (fun c => process_element c counter) children refs
    = walk_children next children counter refs.
Proof.
  induction children as [|child rest IH]; intros refs; [done|].
  cbn [each_child walk_children].
  destruct child as [s|name attrs class kids]; [apply IH|].
  cbn [name_truthy]. destruct name as [|ch name].
  - cbn [truthy]. unfold bind. rewrite process_element_nameless. apply IH.
  - cbn [truthy]. unfold bind.
    destruct (process_element _ counter refs) as [[r refs1]|]; [|done].
    destruct r as [s|].
    + destruct (truthy s).
      * run. rewrite (walk_children_counter next next rest _ counter), IH.
        by destruct (walk_children next rest counter refs1) as [[? ?]|].
      * rewrite IH.
        by destruct (walk_children next rest counter refs1) as [[? ?]|].
    + rewrite IH.
      by destruct (walk_children next rest counter refs1) as [[? ?]|].
Qed.

Lemma join_blocks_truthy (blocks : list string) :
  blocks <> [] -> Forall (fun block => block <> "") blocks ->
  truthy (join NL2 blocks) = true.
Proof.
  destruct blocks as [|b blocks]; [done|]. intros _ Hall.
  apply Forall_cons in Hall as [Hb _].
  destruct b as [|c b]; [done|]. simpl. by destruct blocks.
Qed.

(** A division that is neither an image container nor a footnote division
    is transparent at the top level: replacing it by its children leaves
    the output as it was. *)
Theorem plain_division_is_transparent (name : string)
    (attrs : gmap string string) (class : list string)
    (before after : list Node) (d_attrs : gmap string string)
    (d_class : list string) (d_children : list Node)
    (title subtitle : option string) :
  "captioned-image-container" ∉ d_class -> "footnote" ∉ d_class ->
  convert_html_to_markdown
    (Element name attrs class
       (before ++ Element "div" d_attrs d_class d_children :: after))
    title subtitle
  = convert_html_to_markdown
      (Element name attrs class (before ++ d_children ++ after))
      title subtitle.
Proof.
  intros Himage Hfootnote. unfold convert_html_to_markdown, convert_with.
  cbn [children_of]. rewrite !walk_children_app.
  destruct (walk_children recount before 1 ∅) as [[b1 refs1]|]; [|done].
  rewrite (walk_children_app recount d_children after).
  cbn [walk_children]. unfold bind.
  rewrite process_element_div, !bool_decide_eq_false_2 by done.
  unfold bind. rewrite (each_child_walk recount).
  destruct (walk_children recount d_children 1 refs1) as [[bs refs2]|] eqn:E;
    [|done].
  pose proof (walk_children_blocks _ _ _ _ _ _ E) as Hbs. run.
  destruct bs as [|b bs].
  - by destruct (walk_children recount after 1 refs2) as [[? ?]|].
  - rewrite join_blocks_truthy by done. run.
    rewrite (walk_children_counter recount recount after _ 1).
    destruct (walk_children recount after 1 refs2) as [[b2 refs3]|]; [|done].
    destruct (footnote_block refs3) as [foot|]; [|done].
    do 2 f_equal.
    rewrite !app_assoc, <- (app_assoc _ (_ :: b2) foot).
    rewrite <- (app_assoc _ b2 foot), <- app_comm_cons.
    rewrite <- (app_assoc _ (b :: bs) (b2 ++ foot)).
    by apply join_flatten.
Qed.

Lemma plain_division_is_transparent_witness :
  convert_html_to_markdown
    (tag "doc" [tag "h1" [Text "T"];
                Element "div" ∅ ["body"; "markup"]
                  [tag "p" [Text "one"];
                   footnote_div "#footnote-anchor-1" [Text "n"]];
                tag "p" [Text "two"]]) None None
  = convert_html_to_markdown
      (tag "doc" [tag "h1" [Text "T"]; tag "p" [Text "one"];
                  footnote_div "#footnote-anchor-1" [Text "n"];
                  tag "p" [Text "two"]]) None None.
Proof.
  apply (plain_division_is_transparent "doc" ∅ [] [tag "h1" [Text "T"]]
           [tag "p" [Text "two"]] ∅ ["body"; "markup"]).
  - intros Hin. repeat (apply elem_of_cons in Hin as [Hin|Hin];
                        [discriminate|]).
    by apply elem_of_nil in Hin.
  - intros Hin. repeat (apply elem_of_cons in Hin as [Hin|Hin];
                        [discriminate|]).
    by apply elem_of_nil in Hin.
Defined.

(** ** Footnote divisions at the top level *)

(** A footnote division at the top level appends nothing: the loop goes on
    from the dictionary the handler left. *)
Lemma walk_children_footnote (next : Registry -> Z) (f : Node)
    (rest : list Node) (counter : Z) (refs : Registry) :
  footnote_division f ->
  walk_children next (f :: rest) counter refs
  = if exceeds_limit f then Raise digit_limit_exceeded
    else
      walk_children next rest counter
        match footnote_numeral f, find_class "div" "footnote-content" f with
        | Some n, Some content_elem =>
            <[n := strip (get_text_content content_elem ∅ counter)]> refs
        | _, _ => refs
        end.
Proof.
  destruct f as [s|name attrs class kids]; [done|].
  intros (-> & Hfootnote & Himage).
  cbn [walk_children]. unfold bind.
  rewrite process_element_div, bool_decide_eq_false_2 by done.
  rewrite bool_decide_eq_true_2 by done.
  rewrite handle_footnote_definition_eq. by destruct (exceeds_limit _).
Qed.

(** Two neighbouring footnote divisions with different numerals can be
    exchanged without any change to the output: the order in which the
    footnotes are defined does not show. *)
Theorem footnote_definitions_commute (name : string)
    (attrs : gmap string string) (class : list string)
    (before after : list Node) (f1 f2 : Node)
    (title subtitle : option string) :
  footnote_division f1 -> footnote_division f2 ->
  (forall n, footnote_numeral f1 = Some n -> footnote_numeral f2 <> Some n) ->
  convert_html_to_markdown
    (Element name attrs class (before ++ f1 :: f2 :: after)) title subtitle
  = convert_html_to_markdown
      (Element name attrs class (before ++ f2 :: f1 :: after)) title subtitle.
Proof.
  intros Hf1 Hf2 Hdiff. unfold convert_html_to_markdown, convert_with.
  cbn [children_of]. rewrite !walk_children_app.
  destruct (walk_children recount before 1 ∅) as [[b1 refs1]|]; [|done].
  rewrite !walk_children_footnote by done.
  destruct (exceeds_limit f1), (exceeds_limit f2); try done.
  destruct (footnote_numeral f1) as [n1|]; [|done].
  destruct (find_class "div" "footnote-content" f1) as [c1|]; [|done].
  destruct (footnote_numeral f2) as [n2|]; [|done].
  destruct (find_class "div" "footnote-content" f2) as [c2|]; [|done].
  rewrite insert_insert_ne; [done|]. intros ->. by eapply Hdiff.
Qed.

Lemma footnote_definitions_commute_witness :
  convert_html_to_markdown
    (tag "doc" [tag "p" [Text "x"];
                footnote_div "#footnote-anchor-2" [Text "two"];
                footnote_div "#footnote-anchor-1" [Text "one"]]) None None
  = convert_html_to_markdown
      (tag "doc" [tag "p" [Text "x"];
                  footnote_div "#footnote-anchor-1" [Text "one"];
                  footnote_div "#footnote-anchor-2" [Text "two"]]) None None.
Proof.
  apply (footnote_definitions_commute "doc" ∅ [] [tag "p" [Text "x"]] []
           (footnote_div "#footnote-anchor-2" [Text "two"])
           (footnote_div "#footnote-anchor-1" [Text "one"])).
  - vm_compute. repeat split; try reflexivity.
    + apply list_elem_of_In. left. reflexivity.
    + intros Hin%list_elem_of_In. destruct Hin as [Hin|[]]. discriminate.
  - vm_compute. repeat split; try reflexivity.
    + apply list_elem_of_In. left. reflexivity.
    + intros Hin%list_elem_of_In. destruct Hin as [Hin|[]]. discriminate.
  - intros n. vm_compute. intros [= <-]. discriminate.
Defined.

(** When two neighbouring footnote divisions carry the same numeral and
    the second has a content division, the first leaves no trace in the
    output: the later definition replaces the earlier one. *)
Theorem footnote_redefinition_wins (name : string)
    (attrs : gmap string string) (class : list string)
    (before after : list Node) (f1 f2 content_elem : Node) (n : N)
    (title subtitle : option string) :
  footnote_division f1 -> footnote_division f2 ->
  footnote_numeral f1 = Some n -> footnote_numeral f2 = Some n ->
  find_class "div" "footnote-content" f2 = Some content_elem ->
  convert_html_to_markdown
    (Element name attrs class (before ++ f1 :: f2 :: after)) title subtitle
  = convert_html_to_markdown
      (Element name attrs class (before ++ f2 :: after)) title subtitle.
Proof.
  intros Hf1 Hf2 Hn1 Hn2 Hcontent.
  unfold convert_html_to_markdown, convert_with.
  cbn [children_of]. rewrite !walk_children_app.
  destruct (walk_children recount before 1 ∅) as [[b1 refs1]|]; [|done].
  rewrite !walk_children_footnote by done.
  rewrite (footnote_numeral_within_limit _ _ Hn1).
  rewrite (footnote_numeral_within_limit _ _ Hn2).
  rewrite Hn1, Hn2, Hcontent.
  destruct (find_class "div" "footnote-content" f1) as [c1|]; [|done].
  by rewrite insert_insert_eq.
Qed.

Lemma footnote_redefinition_wins_witness :
  convert_html_to_markdown
    (tag "doc" [footnote_div "#footnote-anchor-1" [Text "first"];
                footnote_div "#footnote-anchor-1" [Text "second"]]) None None
  = convert_html_to_markdown
      (tag "doc" [footnote_div "#footnote-anchor-1" [Text "second"]])
      None None.
Proof.
  apply (footnote_redefinition_wins "doc" ∅ [] [] []
           (footnote_div "#footnote-anchor-1" [Text "first"])
           (footnote_div "#footnote-anchor-1" [Text "second"])
           (Element "div" ∅ ["footnote-content"] [Text "second"]) 1%N).
  - vm_compute. repeat split; try reflexivity.
    + apply list_elem_of_In. left. reflexivity.
    + intros Hin%list_elem_of_In. destruct Hin as [Hin|[]]. discriminate.
  - vm_compute. repeat split; try reflexivity.
    + apply list_elem_of_In. left. reflexivity.
    + intros Hin%list_elem_of_In. destruct Hin as [Hin|[]]. discriminate.
  - vm_compute. reflexivity.
  - vm_compute. reflexivity.
  - vm_compute. reflexivity.
Defined.

(** ** The files of parse_html.py *)

Lemma load_post_metadata_from (rows : list Files.csv_row) (id : string) :
  forall metadata : gmap string Files.post_meta,
    foldl (fun metadata row =>
             <[Files.row_post_id row :=
                 {| Files.meta_title := Files.row_title row;
                    Files.meta_subtitle := Files.row_subtitle row;
                    Files.meta_post_date := Files.row_post_date row |}]>
               metadata) metadata rows !! id
    = match last (filter (fun row => Files.row_post_id row = id) rows) with
      | Some row => Some (Files.meta_of_row row)
      | None => metadata !! id
      end.
Proof.
  induction rows as [|row rows IH]; intros metadata; [done|].
  cbn [foldl]. rewrite IH.
  destruct (decide (Files.row_post_id row = id)) as [Hid|Hid].
  - rewrite filter_cons_True by done. rewrite last_cons.
    destruct (last (filter _ rows)); [done|].
    by rewrite <- Hid, lookup_insert_eq.
  - rewrite filter_cons_False by done.
    destruct (last (filter _ rows)); [done|].
    by rewrite lookup_insert_ne.
Qed.

(** The metadata of a post is that of the last row of the table with its
    identifier; an identifier that no row carries has no metadata. *)
Theorem load_post_metadata_last_row (rows : list Files.csv_row) (id : string) :
  Files.load_post_metadata rows !! id
  = Files.meta_of_row
      <$> last (filter (fun row => Files.row_post_id row = id) rows).
Proof.
  unfold Files.load_post_metadata. rewrite load_post_metadata_from.
  by destruct (last _).
Qed.

(** A file without a row in the table, or whose row has an empty title, is
    converted as a document without title and without subtitle: no header,
    whatever the subtitle of the row.  A file that cannot be read raises
    the exception of the read. *)
Theorem convert_file_without_title (input : result Node) (filename : string)
    (post_metadata : gmap string Files.post_meta) :
  (post_metadata !! filename = None
   \/ exists entry, post_metadata !! filename = Some entry
                    /\ Files.meta_title entry = "") ->
  Files.convert_file input filename post_metadata
  = match input with
    | Ok html => convert_html_to_markdown html None None
    | Raise e => Raise e
    end.
Proof.
  unfold Files.convert_file. destruct input as [html|e]; [|done].
  intros [->|(entry & -> & Htitle)]; [done|].
  simpl. rewrite Htitle.
  unfold convert_html_to_markdown, convert_with.
  destruct (walk_children _ _ _ _) as [[blocks refs]|]; [|done].
  by destruct (footnote_block refs).
Qed.

Lemma convert_file_without_title_witness :
  Files.convert_file (Ok doc_one_note) "77.untitled"
    (Files.load_post_metadata
       [{| Files.row_post_id := "77.untitled"; Files.row_title := "";
           Files.row_subtitle := "A subtitle";
           Files.row_post_date := "2025-01-05T10:00:00.000Z" |}])
  = convert_html_to_markdown doc_one_note None None.
Proof.
  apply (convert_file_without_title (Ok doc_one_note)). right.
  eexists. split; [vm_compute; reflexivity | reflexivity].
Defined.




(** Of the four files of the directory, the second cannot be read and the
    third raises in the conversion: the first and the last are written. *)
Example main_dir_with_failures :
  Files.main (Some Files.dir_with_failures) (Some [])
  = (0%Z, [("1.first.md", "one"); ("4.last.md", "four")]).
Proof. vm_compute. reflexivity. Qed.

(** ** The quarter of a date *)

Lemma lacks_app (c : ascii) (a b : string) :
  lacks c (a +:+ b) = lacks c a && lacks c b.
Proof.
  induction a as [|d a IH]; simpl; [done|]. by rewrite IH, andb_assoc.
Qed.

Lemma pretty_N_go_lacks_Q (x : N) :
  forall s, lacks "Q" s = true -> lacks "Q" (pretty_N_go x s) = true.
Proof.
  induction (N.lt_wf_0 x) as [x _ IH]; intros s Hs.
  destruct (decide (x = 0)%N) as [->|Hx]; [by rewrite pretty_N_go_0|].
  rewrite pretty_N_go_step by lia. apply IH.
  - apply N.div_lt; lia.
  - simpl. rewrite Hs, andb_true_r. unfold pretty_N_char.
    by repeat case_match.
Qed.

Lemma pretty_Z_lacks_Q (z : Z) : lacks "Q" (pretty z) = true.
Proof.
  assert (forall p : positive, lacks "Q" (pretty p) = true) as Hpos.
  { intros p. unfold pretty, pretty_positive, pretty, pretty_N.
    case_decide; [done|]. by apply pretty_N_go_lacks_Q. }
  destruct z as [|p|p]; [done | apply Hpos |].
  unfold pretty, pretty_Z. rewrite lacks_app. by rewrite Hpos.
Qed.

(** Two strings cut at the first occurrence of a character have equal
    parts before and after it. *)
Lemma split_at_char (c : ascii) (a a' b b' : string) :
  lacks c a = true -> lacks c a' = true ->
  a +:+ String c b = a' +:+ String c b' -> a = a' /\ b = b'.
Proof.
  revert a'. induction a as [|d a IH]; intros [|d' a']; simpl.
  - by intros _ _ [= ->].
  - intros _ [Hd _]%andb_true_iff [= <- _].
    by rewrite bool_decide_eq_true_2 in Hd.
  - intros [Hd _]%andb_true_iff _ [= -> _].
    by rewrite bool_decide_eq_true_2 in Hd.
  - intros [_ Ha]%andb_true_iff [_ Ha']%andb_true_iff [= -> Heq].
    destruct (IH _ Ha Ha' Heq) as [-> ->]. done.
Qed.

Lemma sapp_inv_last (c : ascii) (a b : string) :
  a +:+ String c "" = b +:+ String c "" -> a = b.
Proof.
  revert b. induction a as [|d a IH]; intros [|d' b]; simpl; try done.
  - intros [= _ Hb]. by destruct b.
  - intros [= _ Ha]. by destruct a.
  - intros [= -> Heq]. f_equal. by apply IH.
Qed.

(** The label of a quarter tells the year and the quarter apart. *)
Lemma quarter_label_eq (y1 y2 q1 q2 : Z) :
  pretty y1 +:+ "-Q" +:+ pretty q1 = pretty y2 +:+ "-Q" +:+ pretty q2 ->
  y1 = y2 /\ q1 = q2.
Proof.
  intros Heq.
  assert (forall y q : Z,
             pretty y +:+ "-Q" +:+ pretty q
             = (pretty y +:+ "-") +:+ String "Q" (pretty q)) as Hshape.
  { intros. by rewrite sapp_assoc. }
  rewrite !Hshape in Heq.
  apply split_at_char in Heq as [Hy Hq].
  - apply sapp_inv_last in Hy. split; by apply (inj pretty).
  - rewrite lacks_app, pretty_Z_lacks_Q. done.
  - rewrite lacks_app, pretty_Z_lacks_Q. done.
Qed.

Section quarter_facts.
Import Batch.
Variable fromisoformat : string -> result datetime.

(** For a date with a month between 1 and 12, the label is the year and
    Q1 for January to March, Q2 for April to June, Q3 for July to
    September, Q4 for October to December. *)
Theorem get_quarter_by_month (date_string : string) (date : datetime) :
  fromisoformat (replace_char "Z" "+00:00" date_string) = Ok date ->
  (1 <= month date <= 12)%Z ->
  get_quarter fromisoformat date_string
  = Ok (pretty (year date) +:+ "-Q"
          +:+ (if bool_decide (month date <= 3)%Z then "1"
               else if bool_decide (month date <= 6)%Z then "2"
               else if bool_decide (month date <= 9)%Z then "3" else "4")).
Proof.
  intros Hdate Hmonth. rewrite (get_quarter_label _ _ _ Hdate).
  rewrite quarter_of_month by done. by repeat case_bool_decide.
Qed.

(** Two dates get the same label exactly when they have the same year and
    the same quarter: no file of a quarter mixes two years or two
    quarters. *)
Theorem get_quarter_same_label (s1 s2 : string) (d1 d2 : datetime) :
  fromisoformat (replace_char "Z" "+00:00" s1) = Ok d1 ->
  fromisoformat (replace_char "Z" "+00:00" s2) = Ok d2 ->
  get_quarter fromisoformat s1 = get_quarter fromisoformat s2
  <-> year d1 = year d2
      /\ ((month d1 - 1) / 3 = (month d2 - 1) / 3)%Z.
Proof.
  intros H1 H2.
  rewrite (get_quarter_label _ _ _ H1), (get_quarter_label _ _ _ H2). split.
  - intros [= Heq]. apply quarter_label_eq in Heq as [? ?]. split; [done|lia].
  - intros [-> ->]. done.
Qed.

(** A date that does not parse makes [get_quarter] raise the error of the
    parser. *)
Lemma get_quarter_raises (date_string : string) (e : exn) :
  fromisoformat (replace_char "Z" "+00:00" date_string) = Raise e ->
  get_quarter fromisoformat date_string = Raise e.
Proof. unfold get_quarter. by intros ->. Qed.
End quarter_facts.

Lemma get_quarter_by_month_witness :
  Batch.get_quarter Batch.iso_year_month "2025-10-31T18:07:24.508Z"
  = Ok "2025-Q4".
Proof.
  apply (get_quarter_by_month Batch.iso_year_month "2025-10-31T18:07:24.508Z"
           {| Batch.year := 2025; Batch.month := 10 |}).
  - vm_compute. reflexivity.
  - simpl. lia.
Defined.

Lemma get_quarter_same_label_witness :
  Batch.get_quarter Batch.iso_year_month "2025-01-05T10:00:00.000Z"
  = Batch.get_quarter Batch.iso_year_month "2025-03-31T23:59:59.000Z".
Proof.
  apply (get_quarter_same_label Batch.iso_year_month
           "2025-01-05T10:00:00.000Z" "2025-03-31T23:59:59.000Z"
           {| Batch.year := 2025; Batch.month := 1 |}
           {| Batch.year := 2025; Batch.month := 3 |}).
  - vm_compute. reflexivity.
  - vm_compute. reflexivity.
  - split; reflexivity.
Defined.

(** ** Loading the table by quarter *)

Section stable_sort.
Context {A : Type} (R : relation A) `{!RelDecision R, !Transitive R}.

(** Inserting an element into a list keeps the places of the elements
    that are equal to a given one for the order, the inserted element in
    front of them. *)
Lemma filter_insort (z x : A) (l : list A) :
  filter (fun y => R z y /\ R y z) (insort R x l)
  = filter (fun y => R z y /\ R y z) (x :: l).
Proof.
  induction l as [|y l IH]; [done|]. cbn [insort].
  destruct (decide (R x y)) as [Hxy|Hxy]; [done|].
  destruct (decide (R z x /\ R x z)) as [[Hzx Hxz]|Hx].
  - assert (~ (R z y /\ R y z)) as Hy.
    { intros [Hzy Hyz]. apply Hxy. by trans z. }
    rewrite (filter_cons_False _ y (insort R x l)) by done.
    rewrite IH, !(filter_cons_True _ x) by done.
    by rewrite (filter_cons_False _ y l) by done.
  - rewrite (filter_cons_False _ x (y :: l)) by done.
    rewrite !(filter_cons _ y). rewrite IH.
    by rewrite (filter_cons_False _ x l) by done.
Qed.

Lemma filter_sorted (z : A) (l : list A) :
  filter (fun y => R z y /\ R y z) (sorted R l)
  = filter (fun y => R z y /\ R y z) l.
Proof.
  induction l as [|x l IH]; [done|]. cbn [sorted foldr].
  change (foldr (insort R) [] l) with (sorted R l).
  rewrite filter_insort, !filter_cons. by rewrite IH.
Qed.

Lemma filter_sorted_class (P : A -> Prop) `{!forall y, Decision (P y)}
    (z : A) (l : list A) :
  (forall y, P y <-> R z y /\ R y z) ->
  filter P (sorted R l) = filter P l.
Proof.
  intros Hclass. rewrite !(list_filter_iff P _ _ Hclass). apply filter_sorted.
Qed.
End stable_sort.

Section loading_facts.
Import Batch.
Variable fromisoformat : string -> result datetime.

Lemma date_le_transitive : Transitive date_le.
Proof. intros a b c. unfold date_le. apply transitivity. Qed.

Lemma add_rows_nonempty (rows : list post) :
  forall m m',
    map_Forall (fun _ posts => posts <> []) m ->
    add_rows fromisoformat rows m = Ok m' ->
    map_Forall (fun _ posts => posts <> []) m'.
Proof.
  induction rows as [|row rows IH]; intros m m' Hm; simpl.
  - by intros [= <-].
  - destruct (get_quarter fromisoformat (post_date row)) as [quarter|];
      [|done].
    apply IH. apply map_Forall_insert_2; [|done].
    by destruct (default [] (m !! quarter)).
Qed.

Lemma add_rows_parses (rows : list post) :
  forall m m',
    add_rows fromisoformat rows m = Ok m' ->
    Forall (fun row => exists q,
                get_quarter fromisoformat (post_date row) = Ok q) rows.
Proof.
  induction rows as [|row rows IH]; intros m m'; simpl; [constructor|].
  destruct (get_quarter fromisoformat (post_date row)) as [quarter|] eqn:E;
    [|done].
  intros Hrest. constructor; [eauto | by eapply IH].
Qed.




Lemma quarters_partition (rows : list post)
    (posts_by_quarter : gmap string (list post)) :
  load_posts_by_quarter fromisoformat rows = Ok posts_by_quarter ->
  (forall q posts,
      posts_by_quarter !! q = Some posts ->
      posts <> []
      /\ posts ≡ₚ filter (fun row => in_quarter fromisoformat q row = true)
                         rows)
  /\ (forall row,
        row ∈ rows ->
        exists q posts,
          get_quarter fromisoformat (post_date row) = Ok q
          /\ posts_by_quarter !! q = Some posts /\ row ∈ posts).
Proof.
  intros Hload. split.
  - intros q posts Hq.
    destruct (load_posts_by_quarter_groups _ _ _ q Hload) as (_ & _ & Hperm).
    rewrite Hq in Hperm. split; [|exact Hperm].
    unfold load_posts_by_quarter in Hload.
    destruct (add_rows fromisoformat rows ∅) as [m|] eqn:E; [|done].
    injection Hload as <-. rewrite lookup_fmap in Hq.
    destruct (m !! q) as [l|] eqn:El; [|done]. injection Hq as <-.
    pose proof (add_rows_nonempty _ _ _ (map_Forall_empty _) E _ _ El) as Hl.
    intros Hnil. apply Hl. apply Permutation_nil_r.
    rewrite <- Hnil. symmetry. apply sorted_Permutation.
  - intros row Hrow.
    assert (exists q, get_quarter fromisoformat (post_date row) = Ok q)
      as [q Hq].
    { unfold load_posts_by_quarter in Hload.
      destruct (add_rows fromisoformat rows ∅) as [m|] eqn:E; [|done].
      pose proof (add_rows_parses _ _ _ E) as Hall.
      rewrite Forall_forall in Hall. by apply Hall. }
    destruct (load_posts_by_quarter_groups _ _ _ q Hload) as (_ & _ & Hperm).
    assert (row ∈ default [] (posts_by_quarter !! q)) as Hin.
    { rewrite Hperm. apply list_elem_of_filter. split; [|done].
      unfold in_quarter. rewrite Hq. by apply bool_decide_eq_true_2. }
    destruct (posts_by_quarter !! q) as [posts|] eqn:Hposts;
      [|by apply elem_of_nil in Hin].
    by exists q, posts.
Qed.

(** The quarters partition the table: a quarter of the result is never
    empty and holds the rows of that quarter, each as many times as the
    table has it, and every row of the table is in the quarter of its
    date. *)
Theorem load_posts_by_quarter_partition (rows : list post)
    (posts_by_quarter : gmap string (list post)) :
  load_posts_by_quarter fromisoformat rows = Ok posts_by_quarter ->
  (forall q posts,
      posts_by_quarter !! q = Some posts ->
      posts <> []
      /\ posts ≡ₚ filter (fun row => in_quarter fromisoformat q row = true)
                         rows)
  /\ (forall row,
        row ∈ rows ->
        exists q posts,
          get_quarter fromisoformat (post_date row) = Ok q
          /\ posts_by_quarter !! q = Some posts /\ row ∈ posts).
Proof. apply quarters_partition. Qed.

(** Within a quarter the posts are in ascending order of their date
    strings, and the posts that carry the same date string keep the order
    they have in the table. *)
Theorem load_posts_by_quarter_stable (rows : list post)
    (posts_by_quarter : gmap string (list post)) (q d : string) :
  load_posts_by_quarter fromisoformat rows = Ok posts_by_quarter ->
  Sorted date_le (default [] (posts_by_quarter !! q))
  /\ filter (fun p => post_date p = d) (default [] (posts_by_quarter !! q))
     = filter (fun p => post_date p = d)
         (filter (fun row => in_quarter fromisoformat q row = true) rows).
Proof.
  intros Hload.
  destruct (load_posts_by_quarter_groups _ _ _ q Hload) as (Heq & Hsorted & _).
  split; [exact Hsorted|]. rewrite Heq. unfold sort_by_date.
  set (z := {| post_id := ""; post_date := d; title := "" |}).
  assert (forall p, post_date p = d <-> date_le z p /\ date_le p z) as Hclass.
  { intros p. unfold date_le. simpl. split.
    - intros ->. split; reflexivity.
    - intros [? ?]. by apply (anti_symm String.le). }
  apply (filter_sorted_class date_le
           (Transitive0 := date_le_transitive)
           (fun p => post_date p = d) z).
  exact Hclass.
Qed.

Lemma in_quarter_iff (q : string) (row : post) :
  in_quarter fromisoformat q row = true
  <-> get_quarter fromisoformat (post_date row) = Ok q.
Proof.
  unfold in_quarter.
  destruct (get_quarter fromisoformat (post_date row)) as [q'|e]; [|done].
  rewrite bool_decide_eq_true. split; congruence.
Qed.

(** The body of a quarterly file in one equation: the contents of the
    readable posts, in order, the separator between two of them, and one
    more separator in front when the first post of the quarter is skipped
    and a later one is written.  Skipped posts leave nothing else. *)
Theorem write_posts_body (markdown_dir : string -> option string)
    (posts : list post) :
  write_posts markdown_dir 1 posts
  = match posts with
    | first :: _ =>
        match markdown_dir (post_id first), written markdown_dir posts with
        | None, _ :: _ => separator
        | _, _ => ""
        end
    | [] => ""
    end +:+ join separator (written markdown_dir posts).
Proof.
  destruct posts as [|first rest]; [done|].
  destruct (markdown_dir (post_id first)) as [content|] eqn:Hfirst.
  - by rewrite (write_posts_first_readable _ _ _ _ Hfirst).
  - destruct (written markdown_dir (first :: rest)) as [|c cs] eqn:Hwritten.
    + rewrite write_posts_cons, Hfirst, write_posts_later by lia.
      rewrite written_cons, Hfirst in Hwritten. by rewrite Hwritten.
    + rewrite write_posts_first_skipped; [by rewrite <- Hwritten | done |].
      rewrite written_cons, Hfirst in Hwritten. by rewrite Hwritten.
Qed.

(** [main] writes one file for each quarter that has a row in the table
    and no other, in ascending order of the labels; the file of a quarter
    is named after its label and holds the rows of the quarter in date
    order. *)
Theorem main_one_file_per_quarter (rows : list post)
    (markdown_dir : string -> option string) (files : list (string * string)) :
  main fromisoformat rows markdown_dir = Ok files ->
  exists quarters,
    Sorted String.le quarters /\ NoDup quarters
    /\ (forall q, q ∈ quarters
                  <-> exists row,
                        row ∈ rows
                        /\ get_quarter fromisoformat (post_date row) = Ok q)
    /\ files
       = map (fun q =>
                (q +:+ ".md",
                 quarter_file markdown_dir q
                   (sort_by_date
                      (filter (fun row => in_quarter fromisoformat q row = true)
                              rows))))
             quarters.
Proof.
  unfold main.
  destruct (load_posts_by_quarter fromisoformat rows) as [pbq|] eqn:Hload;
    [|done].
  intros [= <-].
  exists (sorted String.le (map_to_list pbq).*1).
  destruct (quarters_partition _ _ Hload) as [Hgroups Hrows].
  split; [apply Sorted_sorted, _|]. split.
  { rewrite sorted_Permutation. apply NoDup_fst_map_to_list. }
  split.
  - intros q. rewrite sorted_Permutation, list_elem_of_fmap. split.
    + intros ([k posts] & -> & Hk%elem_of_map_to_list). simpl.
      destruct (Hgroups _ _ Hk) as [Hne Hperm].
      destruct posts as [|row posts]; [done|].
      assert (row ∈ filter (fun row => in_quarter fromisoformat k row = true)
                           rows) as Hin.
      { rewrite <- Hperm. apply list_elem_of_here. }
      apply list_elem_of_filter in Hin as [Hq Hin].
      exists row. split; [done|]. by apply in_quarter_iff.
    + intros (row & Hrow & Hq).
      destruct (Hrows _ Hrow) as (q' & posts & Hq' & Hposts & _).
      assert (q' = q) as -> by congruence.
      exists (q, posts). split; [done|]. by apply elem_of_map_to_list.
  - apply map_ext. intros q. do 2 f_equal.
    by destruct (load_posts_by_quarter_groups _ _ _ q Hload) as [-> _].
Qed.
End loading_facts.


Lemma load_posts_by_quarter_partition_witness :
  exists q posts,
    Batch.get_quarter Batch.iso_year_month (Batch.post_date Batch.post_apr)
    = Ok q
    /\ ({[ "2025-Q1" := [Batch.post_jan; Batch.post_feb];
           "2025-Q2" := [Batch.post_apr] ]} : gmap string (list Batch.post))
         !! q = Some posts
    /\ Batch.post_apr ∈ posts.
Proof.
  destruct (load_posts_by_quarter_partition Batch.iso_year_month
              [Batch.post_feb; Batch.post_apr; Batch.post_jan]
              {[ "2025-Q1" := [Batch.post_jan; Batch.post_feb];
                 "2025-Q2" := [Batch.post_apr] ]}) as [_ Hrows].
  - vm_compute. reflexivity.
  - apply Hrows. apply list_elem_of_In. right. left. reflexivity.
Defined.

Lemma load_posts_by_quarter_stable_witness :
  Sorted Batch.date_le [Batch.post_jan; Batch.post_feb].
Proof.
  destruct (load_posts_by_quarter_stable Batch.iso_year_month
              [Batch.post_feb; Batch.post_apr; Batch.post_jan]
              {[ "2025-Q1" := [Batch.post_jan; Batch.post_feb];
                 "2025-Q2" := [Batch.post_apr] ]}
              "2025-Q1" "2025-01-05T10:00:00.000Z") as [Hsorted _].
  - vm_compute. reflexivity.
  - exact Hsorted.
Defined.

Lemma main_one_file_per_quarter_witness :
  exists quarters,
    Sorted String.le quarters /\ NoDup quarters
    /\ map fst
         [("2025-Q1.md",
           Batch.quarter_header "2025-Q1" [Batch.post_jan; Batch.post_feb]
             +:+ "First post" +:+ Batch.separator +:+ "Second post");
          ("2025-Q2.md",
           Batch.quarter_header "2025-Q2" [Batch.post_apr] +:+ "Third post")]
       = map (fun q => q +:+ ".md") quarters.
Proof.
  destruct (main_one_file_per_quarter Batch.iso_year_month
              [Batch.post_feb; Batch.post_apr; Batch.post_jan]
              Batch.dir_complete
              [("2025-Q1.md",
                Batch.quarter_header "2025-Q1" [Batch.post_jan; Batch.post_feb]
                  +:+ "First post" +:+ Batch.separator +:+ "Second post");
               ("2025-Q2.md",
                Batch.quarter_header "2025-Q2" [Batch.post_apr]
                  +:+ "Third post")])
    as (quarters & Hsorted & Hnodup & _ & Hfiles).
  - vm_compute. reflexivity.
  - exists quarters. split; [exact Hsorted|]. split; [exact Hnodup|].
    rewrite Hfiles, map_map. reflexivity.
Defined.

(** ** The JSONL file *)

Lemma no_control_app (a b : string) :
  Jsonl.no_control (a +:+ b) = Jsonl.no_control a && Jsonl.no_control b.
Proof.
  induction a as [|c a IH]; simpl; [done|]. by rewrite IH, andb_assoc.
Qed.

Lemma escape_char_no_control (c : ascii) :
  Jsonl.no_control (Jsonl.escape_char c) = true.
Proof. destruct c as [[] [] [] [] [] [] [] []]; vm_compute; reflexivity. Qed.

Lemma escape_no_control (s : string) :
  Jsonl.no_control (Jsonl.escape s) = true.
Proof.
  induction s as [|c s IH]; [done|]. cbn [Jsonl.escape].
  by rewrite no_control_app, escape_char_no_control, IH.
Qed.

Lemma member_no_control (key value : string) :
  Jsonl.no_control key = true ->
  Jsonl.no_control (Jsonl.member key value) = true.
Proof.
  intros Hkey. unfold Jsonl.member, Jsonl.encode_basestring.
  rewrite !no_control_app, Hkey, escape_no_control. reflexivity.
Qed.

Lemma count_char_app (c : ascii) (a b : string) :
  Jsonl.count_char c (a +:+ b)
  = Jsonl.count_char c a + Jsonl.count_char c b.
Proof. induction a as [|d a IH]; simpl; [done|]. rewrite IH. lia. Qed.

Lemma count_newline_no_control (s : string) :
  Jsonl.no_control s = true -> Jsonl.count_char "010" s = 0.
Proof.
  induction s as [|c s IH]; simpl; [done|].
  intros [Hc Hs]%andb_true_iff. rewrite (IH Hs).
  case_bool_decide as Hnl; [|done]. subst c. done.
Qed.

Lemma dumps_is_one_line_aux (e : Jsonl.entry) :
  Jsonl.no_control (Jsonl.dumps e) = true
  /\ Jsonl.count_char "010" (Jsonl.dumps e +:+ NL) = 1.
Proof.
  assert (Jsonl.no_control (Jsonl.dumps e) = true) as Hdumps.
  { unfold Jsonl.dumps.
    rewrite !no_control_app, !member_no_control by reflexivity. reflexivity. }
  split; [exact Hdumps|].
  by rewrite count_char_app, count_newline_no_control.
Qed.

(** A record of the JSONL file holds no character below 32, whatever the
    title, the subtitle and the content of the post: every line break and
    every other control character of the post is escaped, so that a record
    is one line. *)
Theorem dumps_is_one_line (e : Jsonl.entry) :
  Jsonl.no_control (Jsonl.dumps e) = true
  /\ Jsonl.count_char "010" (Jsonl.dumps e +:+ NL) = 1.
Proof. apply dumps_is_one_line_aux. Qed.

Lemma write_lines_count (entries : list Jsonl.entry) :
  Jsonl.count_char "010" (Jsonl.write_lines entries) = length entries.
Proof.
  induction entries as [|e entries IH]; [done|].
  cbn [Jsonl.write_lines length]. rewrite count_char_app, IH.
  destruct (dumps_is_one_line_aux e) as [_ ->]. done.
Qed.

Lemma collect_spec (posts_metadata : gmap string Jsonl.post_meta)
    (markdown_files : list (string * option string)) :
  forall state,
    Jsonl.collect posts_metadata markdown_files state
    = {| Jsonl.jsonl_entries :=
           Jsonl.jsonl_entries state
             ++ omap (jsonl_entry_of posts_metadata) markdown_files;
         Jsonl.processed_count :=
           Jsonl.processed_count state
             + length (omap (jsonl_entry_of posts_metadata) markdown_files);
         Jsonl.missing_count :=
           Jsonl.missing_count state
             + length (filter (fun file => posts_metadata !! file.1 = None)
                              markdown_files) |}.
Proof.
  induction markdown_files as [|[stem file] rest IH]; intros [es pc mc].
  - simpl. by rewrite app_nil_r, !Nat.add_0_r.
  - cbn [Jsonl.collect omap list_omap].
    assert (jsonl_entry_of posts_metadata (stem, file)
            = match posts_metadata !! stem, file with
              | Some meta, Some content =>
                  Some {| Jsonl.entry_post_id := stem;
                          Jsonl.entry_post_date := Jsonl.post_date meta;
                          Jsonl.entry_title := Jsonl.title meta;
                          Jsonl.entry_subtitle := Jsonl.subtitle meta;
                          Jsonl.entry_content := content |}
              | _, _ => None
              end) as -> by reflexivity.
    destruct (posts_metadata !! stem) as [meta|] eqn:Hmeta.
    + rewrite filter_cons_False by (simpl; congruence).
      destruct file as [content|]; rewrite IH; simpl.
      * rewrite <- app_assoc. f_equal. lia.
      * done.
    + rewrite filter_cons_True by done. rewrite IH. simpl. f_equal. lia.
Qed.

Lemma omap_filter_length (posts_metadata : gmap string Jsonl.post_meta)
    (markdown_files : list (string * option string)) :
  length (omap (jsonl_entry_of posts_metadata) markdown_files)
  + length (filter (fun file => posts_metadata !! file.1 = None)
                   markdown_files)
  <= length markdown_files
  /\ (Forall (fun file => is_Some file.2) markdown_files ->
      length (omap (jsonl_entry_of posts_metadata) markdown_files)
      + length (filter (fun file => posts_metadata !! file.1 = None)
                       markdown_files)
      = length markdown_files).
Proof.
  induction markdown_files as [|[stem file] rest [IHle IHeq]].
  - split; [done|]. done.
  - cbn [omap list_omap].
    assert (jsonl_entry_of posts_metadata (stem, file)
            = match posts_metadata !! stem, file with
              | Some meta, Some content =>
                  Some {| Jsonl.entry_post_id := stem;
                          Jsonl.entry_post_date := Jsonl.post_date meta;
                          Jsonl.entry_title := Jsonl.title meta;
                          Jsonl.entry_subtitle := Jsonl.subtitle meta;
                          Jsonl.entry_content := content |}
              | _, _ => None
              end) as -> by reflexivity.
    destruct (posts_metadata !! stem) as [meta|] eqn:Hmeta.
    + rewrite filter_cons_False by (simpl; congruence).
      destruct file as [content|]; simpl.
      * split; [lia|]. intros [_ Hrest]%Forall_cons. specialize (IHeq Hrest).
        lia.
      * split; [lia|]. intros [[? [=]] _]%Forall_cons.
    + rewrite filter_cons_True by done. simpl.
      split; [lia|]. intros [_ Hrest]%Forall_cons. specialize (IHeq Hrest).
      lia.
Qed.

(** When the table exists, the JSONL file has one line for each Markdown
    file that has metadata and can be read, and the counts reported are
    the number of these lines and the number of Markdown files without
    metadata; every Markdown file that can be read is counted once.
    Without the table nothing is written. *)
Theorem jsonl_one_line_per_post (rows : list Jsonl.csv_row)
    (markdown_files : list (string * option string)) :
  Jsonl.main None markdown_files = None
  /\ exists r,
       Jsonl.main (Some rows) markdown_files = Some r
       /\ Jsonl.count_char "010" (Jsonl.jsonl r) = Jsonl.processed r
       /\ Jsonl.processed r
          = length (omap (jsonl_entry_of (Jsonl.load_posts_metadata rows))
                         markdown_files)
       /\ Jsonl.missing r
          = length (filter (fun file =>
                              Jsonl.load_posts_metadata rows !! file.1 = None)
                           markdown_files)
       /\ Jsonl.processed r + Jsonl.missing r <= length markdown_files
       /\ (Forall (fun file => is_Some file.2) markdown_files ->
           Jsonl.processed r + Jsonl.missing r = length markdown_files).
Proof.
  split; [done|]. eexists. split; [reflexivity|].
  rewrite collect_spec. cbn [Jsonl.jsonl Jsonl.processed Jsonl.missing
    Jsonl.jsonl_entries Jsonl.processed_count Jsonl.missing_count app].
  rewrite write_lines_count, sorted_Permutation.
  split; [done|]. split; [done|]. split; [done|].
  apply omap_filter_length.
Qed.

Lemma jsonl_one_line_per_post_witness :
  exists r,
    Jsonl.main
      (Some [{| Jsonl.row_post_id := "1.a";
                Jsonl.row_post_date := "2025-01-05T10:00:00.000Z";
                Jsonl.row_title := "A"; Jsonl.row_subtitle := "";
                Jsonl.row_is_published := None; Jsonl.row_type := None;
                Jsonl.row_audience := None |}])
      [("1.a", Some ("one" +:+ NL +:+ "two")); ("3.c", Some "x")] = Some r
    /\ Jsonl.processed r + Jsonl.missing r = 2.
Proof.
  destruct (jsonl_one_line_per_post
              [{| Jsonl.row_post_id := "1.a";
                  Jsonl.row_post_date := "2025-01-05T10:00:00.000Z";
                  Jsonl.row_title := "A"; Jsonl.row_subtitle := "";
                  Jsonl.row_is_published := None; Jsonl.row_type := None;
                  Jsonl.row_audience := None |}]
              [("1.a", Some ("one" +:+ NL +:+ "two")); ("3.c", Some "x")])
    as (_ & r & Hmain & _ & _ & _ & _ & Hall).
  exists r. split; [exact Hmain|]. apply Hall.
  repeat constructor; by eexists.
Defined.

Lemma newer_transitive : Transitive Jsonl.newer.
Proof.
  intros a b c Hab Hbc. unfold Jsonl.newer in *.
  by trans (Jsonl.entry_post_date b).
Qed.

Lemma newer_total : Total Jsonl.newer.
Proof.
  intros a b. unfold Jsonl.newer.
  destruct (total String.le (Jsonl.entry_post_date a)
              (Jsonl.entry_post_date b)); auto.
Qed.

(** The records of the JSONL file are those of the readable Markdown files
    with metadata, the newest date string first, and the records with the
    same date string in the order of the directory listing. *)
Theorem jsonl_newest_first (rows : list Jsonl.csv_row)
    (markdown_files : list (string * option string)) (d : string) :
  exists r entries,
    Jsonl.main (Some rows) markdown_files = Some r
    /\ Jsonl.jsonl r = Jsonl.write_lines entries
    /\ Sorted Jsonl.newer entries
    /\ entries ≡ₚ omap (jsonl_entry_of (Jsonl.load_posts_metadata rows))
                       markdown_files
    /\ filter (fun e => Jsonl.entry_post_date e = d) entries
       = filter (fun e => Jsonl.entry_post_date e = d)
           (omap (jsonl_entry_of (Jsonl.load_posts_metadata rows))
                 markdown_files).
Proof.
  eexists. eexists. split; [reflexivity|].
  rewrite collect_spec. cbn [Jsonl.jsonl Jsonl.jsonl_entries app].
  split; [reflexivity|].
  split; [apply Sorted_sorted, newer_total|].
  split; [apply sorted_Permutation|].
  set (z := {| Jsonl.entry_post_id := ""; Jsonl.entry_post_date := d;
               Jsonl.entry_title := ""; Jsonl.entry_subtitle := "";
               Jsonl.entry_content := "" |}).
  apply (filter_sorted_class Jsonl.newer (Transitive0 := newer_transitive)
           (fun e => Jsonl.entry_post_date e = d) z).
  intros e. unfold Jsonl.newer. simpl. split.
  - intros ->. split; reflexivity.
  - intros [? ?]. by apply (anti_symm String.le).
Qed.

(** ** The pipeline *)

(** The pipeline runs the scripts in order and stops at the first one
    that fails: it returns 0 exactly when every script succeeds, having run
    them all, and otherwise returns 1, having run the scripts up to the
    first failing one and none after it. *)
Theorem run_steps_stops_at_first_failure (run_script : string -> bool)
    (steps : list (string * string)) :
  (Forall (fun script => run_script script = true) steps.*2
   -> Pipeline.run_steps run_script steps = (0%Z, steps.*2))
  /\ (forall before failing after,
        steps.*2 = before ++ failing :: after ->
        Forall (fun script => run_script script = true) before ->
        run_script failing = false ->
        Pipeline.run_steps run_script steps = (1%Z, before ++ [failing]))
  /\ ((Pipeline.run_steps run_script steps).1 = 0%Z
      <-> Forall (fun script => run_script script = true) steps.*2).
Proof.
  induction steps as [|[description script] rest (IHok & IHfail & IHiff)].
  - split; [done|]. split; [|done].
    intros [|? ?] ? ? Heq; discriminate.
  - cbn [Pipeline.run_steps fmap list_fmap snd].
    split; [|split].
    + intros [-> Hrest]%Forall_cons. by rewrite (IHok Hrest).
    + intros [|b before] failing after Heq Hbefore Hfail.
      * injection Heq as <- _. by rewrite Hfail.
      * injection Heq as <- Heq.
        apply Forall_cons in Hbefore as [-> Hbefore].
        by rewrite (IHfail _ _ _ Heq Hbefore Hfail).
    + destruct (run_script script) eqn:Hscript.
      * destruct (Pipeline.run_steps run_script rest) as [code ran].
        simpl in *. rewrite IHiff. split.
        -- intros Hrest. by constructor.
        -- by intros [_ Hrest]%Forall_cons.
      * simpl. split; [done|].
        intros [Hs _]%Forall_cons. congruence.
Qed.

Lemma run_steps_stops_at_first_failure_witness :
  Pipeline.main (fun script => negb (bool_decide (script = "convert_to_jsonl.py")))
  = (1%Z, ["parse_html.py"; "convert_to_jsonl.py"]).
Proof.
  destruct (run_steps_stops_at_first_failure
              (fun script => negb (bool_decide (script = "convert_to_jsonl.py")))
              Pipeline.steps) as (_ & Hfail & _).
  apply (Hfail ["parse_html.py"] "convert_to_jsonl.py" ["batch_by_quarter.py"]).
  - reflexivity.
  - repeat constructor.
  - reflexivity.
Defined.

(** ** The header of a titled document *)

Lemma rstrip_app_fixed (a b : string) :
  rstrip a = a -> a <> "" -> exists rest, rstrip (a +:+ b) = a +:+ rest.
Proof.
  intros Ha Hne. destruct (rstrip b) as [|c r] eqn:Hb.
  - exists "". by rewrite rstrip_app_blank, sapp_nil_r.
  - exists (rstrip b). apply rstrip_app_r. by rewrite Hb.
Qed.

(** With a title that is not empty the output starts with the title line,
    a blank line, the subtitle line in italics and a blank line when the
    subtitle is not empty, and the [---] line; the body follows. *)
Theorem header_comes_first (root : Node) (title : string)
    (subtitle : option string) (out : string) :
  title <> "" ->
  convert_html_to_markdown root (Some title) subtitle = Ok out ->
  exists rest,
    out = "# " +:+ title +:+ NL2
            +:+ match subtitle with
                | Some st => if truthy st then "*" +:+ st +:+ "*" +:+ NL2
                             else ""
                | None => ""
                end +:+ "---" +:+ rest.
Proof.
  intros Htitle Hout.
  destruct (convert_with_inv _ _ _ _ _ _ Hout) as (blocks & refs & Hwalk).
  unfold convert_html_to_markdown in Hout.
  rewrite (convert_with_eq _ _ _ _ _ _ _ Hwalk) in Hout.
  assert (out = strip (join NL2
                         (header_lines (Some title) subtitle ++ blocks
                            ++ if bool_decide (refs = ∅) then []
                               else footnote_separator :: footnote_entries refs)))
    as -> by congruence.
  clear Hout. set (tail := blocks ++ _).
  set (sub := match subtitle with
              | Some st => if truthy st then ["*" +:+ st +:+ "*"] else []
              | None => []
              end).
  assert (header_lines (Some title) subtitle = ("# " +:+ title) :: sub ++ ["---"])
    as ->.
  { unfold header_lines, sub. destruct title; [done|]. done. }
  set (P := "# " +:+ title +:+ NL2
            +:+ match subtitle with
                | Some st => if truthy st then "*" +:+ st +:+ "*" +:+ NL2
                             else ""
                | None => ""
                end).
  assert (exists more,
             join NL2 ((("# " +:+ title) :: sub ++ ["---"]) ++ tail)
             = (P +:+ "---") +:+ more) as [more ->].
  { rewrite <- app_comm_cons, <- app_assoc.
    rewrite join_cons by (by destruct sub).
    change (["---"] ++ tail) with ("---" :: tail).
    rewrite (join_app_cons NL2 sub "---" tail).
    exists (match tail with [] => "" | _ => NL2 +:+ join NL2 tail end).
    unfold P, sub. destruct subtitle as [st|]; [destruct (truthy st)|];
      repeat (progress (rewrite ?sapp_assoc; simpl)); done. }
  assert (rstrip (P +:+ "---") = P +:+ "---") as Hfixed.
  { by rewrite rstrip_app_r. }
  assert (P +:+ "---" <> "") as Hne by done.
  destruct (rstrip_app_fixed _ more Hfixed Hne) as [rest Hrest].
  exists rest. unfold strip.
  assert (lstrip ((P +:+ "---") +:+ more) = (P +:+ "---") +:+ more) as ->
    by done.
  rewrite Hrest. unfold P. by rewrite !sapp_assoc.
Qed.

Lemma header_comes_first_witness :
  exists out rest,
    convert_html_to_markdown doc_one_note (Some "My title") (Some "Sub")
    = Ok out
    /\ out = "# " +:+ "My title" +:+ NL2 +:+ ("*" +:+ "Sub" +:+ "*" +:+ NL2)
              +:+ "---" +:+ rest.
Proof.
  destruct (convert_returns doc_one_note (Some "My title") (Some "Sub")
              eq_refl) as [out Hout].
  destruct (header_comes_first doc_one_note "My title" (Some "Sub") out)
    as [rest Hrest].
  - discriminate.
  - exact Hout.
  - exists out, rest. split; [exact Hout | exact Hrest].
Defined.
